(** * Anonymous-messaging web application: dashboard export and send view

    A shallow embedding of the procedural parts of the application:

    - the dashboard ([src/api/messages.ts], component [Dashboard]):
      [markAsRead], the still-image export [downloadMessage] with its
      [wrapText] helper, and the frame callback [drawFrame] of the video
      export [downloadVideoTemplate];
    - the send view ([src/unnamed/part_000], component [SendMessage]):
      [sendTextMessage] and [sendAudioMessage].

    Conventions.  A JavaScript number is an exact rational ([Q]); the
    code only adds, multiplies, divides by positive constants, compares
    and takes minima, and no statement below depends on rounding.  A
    JavaScript string is the [string] of the bytes of its UTF-8
    encoding, which is how the source files store their literals.  The
    2D context is write-only for the code at hand, so a
    run is the list of calls made on it.  What the browser supplies
    (text metrics, [Math.sin], [Math.random], [Date.now], the date
    formatter, the computed style, the JPEG encoder, the answers of the
    message store) enters as a parameter. *)

From Stdlib Require Import ZArith QArith Qminmax Qround String Ascii List Lia DecimalString.
From stdpp Require Import base option list strings gmap.

Open Scope string_scope.
Open Scope list_scope.

(** ** JavaScript primitives used by the two components *)

Module JS.

Definition number := Q.

(** [a > b] on numbers. *)
Definition gt (a b : number) : bool := negb (Qle_bool a b).

(** [a < b] on numbers. *)
Definition lt (a b : number) : bool := negb (Qle_bool b a).

(** [a >= b] on numbers. *)
Definition ge (a b : number) : bool := Qle_bool b a.

Definition of_nat (n : nat) : number := inject_Z (Z.of_nat n).

Definition is_space (c : ascii) : bool := Ascii.eqb c " "%char.

(** [s.split(' ')]: never empty, [''.split(' ')] is [['']]. *)
Fixpoint split_space (s : string) : list string :=
  match s with
  | "" => [""]
  | String c s' =>
      if is_space c then "" :: split_space s'
      else match split_space s' with
           | w :: ws => String c w :: ws
           | [] => [String c ""]
           end
  end.

(** [ws.join(sep)] is [String.concat sep ws]. *)
Definition join (sep : string) (ws : list string) : string :=
  String.concat sep ws.

(** The white space and the line terminators of ECMAScript, each as
    the bytes of its UTF-8 encoding: TAB, LF, VT, FF, CR, SP, U+00A0,
    U+1680, U+2000 to U+200A, U+2028, U+2029, U+202F, U+205F, U+3000
    and U+FEFF. *)
Definition bytes (l : list N) : string :=
  string_of_list_ascii (map ascii_of_N l).

Definition white_space : list string :=
  map bytes
    [ [9]; [10]; [11]; [12]; [13]; [32]; [194; 160]; [225; 154; 128];
      [226; 128; 128]; [226; 128; 129]; [226; 128; 130]; [226; 128; 131];
      [226; 128; 132]; [226; 128; 133]; [226; 128; 134]; [226; 128; 135];
      [226; 128; 136]; [226; 128; 137]; [226; 128; 138];
      [226; 128; 168]; [226; 128; 169]; [226; 128; 175];
      [226; 129; 159]; [227; 128; 128]; [239; 187; 191] ]%N.

(** White space of one byte. *)
Definition is_white_space (c : ascii) : bool :=
  match N_of_ascii c with
  | 9 | 10 | 11 | 12 | 13 | 32 => true
  | _ => false
  end%N.

(** White space of two bytes. *)
Definition is_white_space2 (c1 c2 : ascii) : bool :=
  match N_of_ascii c1, N_of_ascii c2 with
  | 194, 160 => true
  | _, _ => false
  end%N.

(** White space of three bytes. *)
Definition is_white_space3 (c1 c2 c3 : ascii) : bool :=
  match N_of_ascii c1, N_of_ascii c2, N_of_ascii c3 with
  | 225, 154, 128 => true
  | 226, 128, n => ((128 <=? n) && (n <=? 138)) || (n =? 168) || (n =? 169)
                   || (n =? 175)
  | 226, 129, 159 => true
  | 227, 128, 128 => true
  | 239, 187, 191 => true
  | _, _, _ => false
  end%N.

Fixpoint trimStart (s : string) : string :=
  match s with
  | "" => ""
  | String c1 s1 =>
      if is_white_space c1 then trimStart s1
      else
        match s1 with
        | "" => s
        | String c2 s2 =>
            if is_white_space2 c1 c2 then trimStart s2
            else
              match s2 with
              | "" => s
              | String c3 s3 =>
                  if is_white_space3 c1 c2 c3 then trimStart s3 else s
              end
        end
  end.

(** Is [s] white space from end to end? *)
Definition all_white_space (s : string) : bool :=
  match trimStart s with "" => true | _ => false end.

Fixpoint trimEnd (s : string) : string :=
  match s with
  | "" => ""
  | String c s' =>
      if all_white_space (String c s') then "" else String c (trimEnd s')
  end.

(** [s.trim()] *)
Definition trim (s : string) : string := trimEnd (trimStart s).

(** Truthiness of a string: every string but [''] is truthy. *)
Definition truthy (s : string) : bool :=
  match s with "" => false | _ => true end.

(** [a || b] on strings. *)
Definition or_else (a b : string) : string := if truthy a then a else b.

(** [a || b] where [a] may be [null]. *)
Definition or_else_null (a : option string) (b : string) : string :=
  match a with
  | Some s => or_else s b
  | None => b
  end.

Definition upper_char (c : ascii) : ascii :=
  let n := N_of_ascii c in
  if ((97 <=? n) && (n <=? 122))%N then ascii_of_N (n - 32) else c.

(** [s.toUpperCase()] on the ASCII letters. *)
Fixpoint toUpperCase (s : string) : string :=
  match s with
  | "" => ""
  | String c s' => String (upper_char c) (toUpperCase s')
  end.

(** The one-character string holding a double quote. *)
Definition dquote : string := String (ascii_of_N 34) "".

(** Decimal text of an integer, as a template literal prints it. *)
Definition string_of_Z (z : Z) : string :=
  NilEmpty.string_of_int (Z.to_int z).

End JS.

(** ** The 2D rendering context, as the sequence of calls made on it *)

Module Canvas.

Inductive fill_style :=
| Color (css : string)
| LinearGradient (x0 y0 x1 y1 : JS.number) (stops : list (JS.number * string)).

Inductive op :=
| ClearRect (x y w h : JS.number)
| FillRect (x y w h : JS.number)
| BeginPath
| MoveTo (x y : JS.number)
| ArcTo (x1 y1 x2 y2 r : JS.number)
| Arc (x y r a0 a1 : JS.number)
| ClosePath
| Fill
| Save
| Restore
| SetFillStyle (s : fill_style)
| SetShadowColor (css : string)
| SetShadowBlur (b : JS.number)
| SetShadowOffsetY (d : JS.number)
| SetFont (font : string)
| SetTextAlign (a : string)
| SetTextBaseline (b : string)
| FillText (text : string) (x y : JS.number).

(** The texts drawn by a run, in order. *)
Fixpoint texts (ops : list op) : list string :=
  match ops with
  | [] => []
  | FillText t _ _ :: ops' => t :: texts ops'
  | _ :: ops' => texts ops'
  end.

(** Does the call put pixels on the surface? *)
Definition paints (o : op) : bool :=
  match o with
  | FillRect _ _ _ _ | Fill | FillText _ _ _ => true
  | _ => false
  end.

End Canvas.

(** ** The dashboard ([Dashboard] in [src/api/messages.ts]) *)

Module Dashboard.

Import Canvas.

Record Message := {
  id : string;
  message_text : option string;
  audio_url : option string;
  message_type : string;
  is_read : bool;
  created_at : string
}.

(** [{ ...msg, is_read: true }] *)
Definition with_is_read_true (msg : Message) : Message :=
  {| id := id msg;
     message_text := message_text msg;
     audio_url := audio_url msg;
     message_type := message_type msg;
     is_read := true;
     created_at := created_at msg |}.

(** [markAsRead]: [error] is the answer of the store to the update;
    the result is the next value of the [messages] state. *)
Definition markAsRead (error : option string) (messageId : string)
    (prev : list Message) : list Message :=
  match error with
  | None =>
      map (fun msg =>
             if String.eqb (id msg) messageId
             then with_is_read_true msg else msg) prev
  | Some _ => prev
  end.

(** What an export leaves behind: calls on the 2D context, the
    encoding of the surface, and the file handed to the browser. *)
Inductive effect :=
| Draw (o : Canvas.op)
| Encode (mime : string) (quality : JS.number)
| Download (href filename : string).

Definition drawn (es : list effect) : list Canvas.op :=
  flat_map (fun e => match e with Draw o => [o] | _ => [] end) es.

Local Open Scope Q_scope.

Section Renderer.

(** [ctx.measureText(text).width] under the font [font]. *)
Variable measureText : string -> string -> JS.number.
(** [getComputedStyle(document.documentElement).getPropertyValue] *)
Variable getPropertyValue : string -> string.
(** The value of the [k]-th call of [Math.random()] in a run. *)
Variable random : nat -> JS.number.
Variable sin : JS.number -> JS.number.
Variable PI : JS.number.
(** [format(new Date(s), pattern)] of date-fns. *)
Variable format : string -> string -> string.
(** [canvas.toDataURL(mime, quality)] of a surface painted by [ops]. *)
Variable toDataURL : list Canvas.op -> string -> JS.number -> string.
(** A number inside a template literal. *)
Variable number_to_string : JS.number -> string.

Definition roundRect (x y w h r : JS.number) : list op :=
  [ BeginPath;
    MoveTo (x + r) y;
    ArcTo (x + w) y (x + w) (y + h) r;
    ArcTo (x + w) (y + h) x (y + h) r;
    ArcTo x (y + h) x y r;
    ArcTo x y (x + w) y r;
    ClosePath ].

(** The loop of [wrapText], from index [n] on: [words] are the
    words still to come, [line] and [drawY] the loop variables.
    Returns the calls made and the final [line] and [drawY]. *)
Fixpoint wrapText_loop (font : string) (x maxWidth lineHeight : JS.number)
    (words : list string) (n : nat) (line : string) (drawY : JS.number)
    : list op * (string * JS.number) :=
  match words with
  | [] => ([], (line, drawY))
  | w :: rest =>
      let testLine := line +:+ w +:+ " " in
      let metrics := measureText font testLine in
      if JS.gt metrics maxWidth && (0 <? n)%nat then
        let '(ops, fin) :=
          wrapText_loop font x maxWidth lineHeight rest (S n)
            (w +:+ " ") (drawY + lineHeight) in
        (FillText line x drawY :: ops, fin)
      else
        wrapText_loop font x maxWidth lineHeight rest (S n) testLine drawY
  end.

(** [wrapText(text, x, y, maxWidth, lineHeight)] with the context
    font [font]: the calls made and the returned ordinate. *)
Definition wrapText (font : string) (text : string)
    (x y maxWidth lineHeight : JS.number) : list op * JS.number :=
  let words := JS.split_space text in
  let '(ops, (line, drawY)) :=
    wrapText_loop font x maxWidth lineHeight words 0 "" y in
  (ops ++ [FillText line x drawY], drawY + lineHeight).

Definition placeholder : string :=
  "Pesan audio diterima. Putar di Dashboard kamu.".

(** [contentText] of [downloadMessage]. *)
Definition contentText (message : Message) : string :=
  match message_text message with
  | Some s =>
      if JS.truthy s && (0 <? String.length (JS.trim s))%nat
      then s else placeholder
  | None => placeholder
  end.

Definition background : list op :=
  [ SetFillStyle
      (LinearGradient 0 0 1080 1080
         [ (0, "hsl(340, 82%, 90%)"); (0.3, "hsl(260, 75%, 92%)");
           (0.7, "hsl(200, 90%, 88%)"); (1, "hsl(150, 65%, 85%)") ]);
    FillRect 0 0 1080 1080 ].

Definition css_var (name fallback : string) : string :=
  JS.or_else (JS.trim (getPropertyValue name)) fallback.

Definition hsl (v : string) : string := "hsl(" +:+ v +:+ ")".

Definition sans : string :=
  "Inter, system-ui, -apple-system, Segoe UI, Roboto, Arial".

(** The literal of the icon, as the source file stores it. *)
Definition note_glyph : string := "ðŸŽµ".

(** The calls [downloadMessage] makes on an acquired context. *)
Definition downloadMessage_ops (message : Message) : list op :=
  let width := 1080 in
  let height := 1080 in
  let primary := css_var "--primary" "220 90% 50%" in
  let accent := css_var "--accent" "300 80% 60%" in
  let foreground := css_var "--foreground" "222 84% 5%" in
  let card := css_var "--card" "0 0% 100%" in
  let dots :=
    flat_map (fun i : nat =>
      let x := random (3 * i) * width in
      let y := random (3 * i + 1) * height in
      let radius := 8 + random (3 * i + 2) * 12 in
      [ BeginPath; Arc x y radius 0 (2 * PI); Fill ]) (seq 0 50) in
  let pad := 72 in
  let cardX := pad in
  let cardY := pad in
  let cardW := width - pad * 2 in
  let cardH := height - pad * 2 in
  let radius := 32 in
  let title :=
    if String.eqb (message_type message) "audio"
    then "Anonymous Audio Message" else "Anonymous Message" in
  let badgeText := JS.toUpperCase (message_type message) in
  let badgeFont := "600 28px " +:+ sans in
  let badgeW := measureText badgeFont badgeText + 40 in
  let badgeH := 44 in
  let badgeX := cardX + 48 in
  let badgeY := cardY + 130 in
  let contentFont := "400 36px " +:+ sans in
  let textStartX := cardX + 48 in
  let textStartY := badgeY + badgeH + 32 in
  let textWidth := cardW - 96 in
  let '(textOps, endY) :=
    wrapText contentFont (contentText message)
      textStartX textStartY textWidth 48 in
  let audioOps :=
    if String.eqb (message_type message) "audio" then
      let bars := 48%nat in
      let baseY := endY + 32 in
      let barW := (textWidth - (JS.of_nat bars - 1) * 6) / JS.of_nat bars in
      flat_map (fun i : nat =>
        let h := 20 + sin (JS.of_nat i * 0.5) * 18 + random (150 + i) * 16 in
        let x := textStartX + JS.of_nat i * (barW + 6) in
        let y := baseY + (64 - h) / 2 in
        [ SetFillStyle
            (LinearGradient x y x (y + h)
               [ (0, "hsl(340, 82%, 75%)"); (0.5, "hsl(260, 75%, 80%)");
                 (1, "hsl(200, 90%, 75%)") ]) ]
        ++ roundRect x y barW h 2 ++ [ Fill ]) (seq 0 bars)
      ++ [ SetFillStyle (Color "hsl(340, 82%, 70%)");
           SetFont ("700 32px " +:+ sans);
           FillText note_glyph (textStartX + textWidth - 60) (baseY + 20) ]
    else [] in
  background
  ++ [ SetFillStyle (Color "hsl(340, 82%, 95%)") ] ++ dots
  ++ [ Save; SetShadowColor "rgba(0,0,0,0.25)"; SetShadowBlur 24;
       SetShadowOffsetY 8 ]
  ++ roundRect cardX cardY cardW cardH radius
  ++ [ SetFillStyle (Color (hsl card)); Fill; Restore;
       SetFillStyle (Color (hsl foreground));
       SetFont ("700 64px " +:+ JS.dquote +:+ "Playfair Display" +:+ JS.dquote
                +:+ ", serif");
       SetTextAlign "left"; SetTextBaseline "top";
       FillText title (cardX + 48) (cardY + 48);
       SetFont badgeFont;
       SetFillStyle (Color (hsl primary)) ]
  ++ roundRect badgeX badgeY badgeW badgeH 12
  ++ [ Fill;
       SetFillStyle
         (Color (hsl (css_var "--primary-foreground" "210 40% 98%")));
       SetTextBaseline "middle";
       FillText badgeText (badgeX + 20) (badgeY + badgeH / 2);
       SetTextAlign "left";
       SetFillStyle (Color (hsl foreground));
       SetFont contentFont ]
  ++ textOps
  ++ audioOps
  ++ [ SetFillStyle
         (Color (hsl (css_var "--muted-foreground" "215 16% 47%")));
       SetFont ("400 24px " +:+ sans);
       FillText ("Diterima: " +:+ format (created_at message) "PPp")
         (cardX + 48) (cardY + cardH - 72) ].

(** [downloadMessage(message)]; [ctx] tells whether
    [canvas.getContext('2d')] gave a context. *)
Definition downloadMessage (ctx : bool) (message : Message) : list effect :=
  if ctx then
    let ops := downloadMessage_ops message in
    let dataUrl := toDataURL ops "image/jpeg" 0.92 in
    map Draw ops
    ++ [ Encode "image/jpeg" 0.92;
         Download dataUrl
           ("message-" +:+ format (created_at message) "yyyy-MM-dd"
            +:+ ".jpg") ]
  else [].

(** *** The video export: the frame callback of [downloadVideoTemplate] *)

(** [const elapsed = (Date.now() - startTime) / 1000] *)
Definition elapsed (startTime now : Z) : JS.number :=
  inject_Z (now - startTime) / 1000.

(** [const progress = Math.min(elapsed / duration, 1)] *)
Definition progress (elapsed duration : JS.number) : JS.number :=
  Qmin (elapsed / duration) 1.

(** The text-wrapping loop written out inside [drawFrame]. *)
Fixpoint drawFrame_wrap (x maxWidth : JS.number)
    (words : list string) (n : nat) (line : string) (y : JS.number)
    : list op * (string * JS.number) :=
  match words with
  | [] => ([], (line, y))
  | w :: rest =>
      let testLine := line +:+ w +:+ " " in
      let metrics := measureText "28px Arial, sans-serif" testLine in
      if JS.gt metrics maxWidth && (0 <? n)%nat then
        let '(ops, fin) :=
          drawFrame_wrap x maxWidth rest (S n) (w +:+ " ") (y + 35) in
        (FillText line x y :: ops, fin)
      else
        drawFrame_wrap x maxWidth rest (S n) testLine y
  end.

(** How a frame ends: it asks for the next frame, or it stops the
    recorder (and pauses and rewinds the audio). *)
Inductive next := RequestAnimationFrame | StopRecording.

(** The last statement of [drawFrame]. *)
Definition drawFrame_next (elapsed duration : JS.number) : next :=
  if JS.lt elapsed (duration + 1) then RequestAnimationFrame
  else StopRecording.

Definition hsl3 (h s l : JS.number) : string :=
  "hsl(" +:+ number_to_string h +:+ ", " +:+ number_to_string s +:+ "%, "
  +:+ number_to_string l +:+ "%)".

(** [drawFrame] run at time [now]: the calls on the context and the
    way the frame ends. *)
Definition drawFrame (message : Message) (startTime : Z)
    (duration : JS.number) (now : Z) : list op * next :=
  let width := 1080 in
  let height := 1080 in
  let elapsed := elapsed startTime now in
  let progress := progress elapsed duration in
  let dots :=
    flat_map (fun i : nat =>
      let x := (width / 6) * JS.of_nat (i mod 6) + 90 in
      let y := (height / 5) * JS.of_nat (i / 6) + 90 in
      let radius := 12 + sin (elapsed * 3 + JS.of_nat i * 0.5) * 6 in
      [ BeginPath; Arc x y radius 0 (2 * PI); Fill ]) (seq 0 30) in
  let pad := 72 in
  let cardX := pad in
  let cardY := pad + 100 in
  let cardW := width - pad * 2 in
  let cardH := height - pad * 2 - 200 in
  let radius := 32 in
  let title := "Anonymous Audio Message" in
  let badgeText := "AUDIO" in
  let badgeW := measureText "bold 24px Arial, sans-serif" badgeText + 32 in
  let badgeH := 36 in
  let badgeX := cardX + 48 in
  let badgeY := cardY + 110 in
  let messageText :=
    JS.or_else_null (message_text message) "Audio message received" in
  let textY := badgeY + badgeH + 24 in
  let maxWidth := cardW - 96 in
  let words := JS.split_space messageText in
  let '(textOps, (line, y)) :=
    drawFrame_wrap (cardX + 48) maxWidth words 0 "" textY in
  let waveY := y + 80 in
  let bars := 40%nat in
  let barW := (cardW - 96) / JS.of_nat bars in
  let maxBarH := 80 in
  let wave :=
    flat_map (fun i : nat =>
      let frequency := 0.1 + (JS.of_nat i / JS.of_nat bars) * 0.3 in
      let amplitude :=
        sin (elapsed * 4 + JS.of_nat i * frequency) * 0.5 + 0.5 in
      let barH := 20 + amplitude * maxBarH in
      let x := cardX + 48 + JS.of_nat i * barW in
      let yBar := waveY + (maxBarH - barH) / 2 in
      let isActive := JS.ge progress (JS.of_nat i / JS.of_nat bars) in
      let hue :=
        if isActive then 340 + (JS.of_nat i / JS.of_nat bars) * 60
        else 220 in
      let saturation := if isActive then 82 else 20 in
      let lightness := if isActive then 70 else 80 in
      [ SetFillStyle (Color (hsl3 hue saturation lightness)) ]
      ++ roundRect x yBar (barW - 2) barH 3 ++ [ Fill ]) (seq 0 bars) in
  let progressY := waveY + maxBarH + 40 in
  let progressW := cardW - 96 in
  let progressH := 8 in
  let currentTime := Qfloor elapsed in
  let totalTime := Qfloor duration in
  let timeText :=
    JS.string_of_Z currentTime +:+ "s / " +:+ JS.string_of_Z totalTime
    +:+ "s" in
  ( [ ClearRect 0 0 width height ]
    ++ background
    ++ [ SetFillStyle
           (Color ("hsl(340, 82%, "
                   +:+ number_to_string (85 + sin (elapsed * 2) * 10)
                   +:+ "%)")) ]
    ++ dots
    ++ [ Save; SetShadowColor "rgba(0,0,0,0.25)"; SetShadowBlur 24;
         SetShadowOffsetY 8 ]
    ++ roundRect cardX cardY cardW cardH radius
    ++ [ SetFillStyle (Color "hsl(0, 0%, 100%)"); Fill; Restore;
         SetFillStyle (Color "hsl(222, 84%, 5%)");
         SetFont "bold 48px Arial, sans-serif";
         SetTextAlign "left"; SetTextBaseline "top";
         FillText title (cardX + 48) (cardY + 48);
         SetFont "bold 24px Arial, sans-serif";
         SetFillStyle (Color "hsl(340, 82%, 70%)") ]
    ++ roundRect badgeX badgeY badgeW badgeH 8
    ++ [ Fill;
         SetFillStyle (Color "hsl(0, 0%, 100%)");
         SetTextBaseline "middle";
         FillText badgeText (badgeX + 16) (badgeY + badgeH / 2);
         SetFillStyle (Color "hsl(222, 84%, 5%)");
         SetFont "28px Arial, sans-serif";
         SetTextBaseline "top" ]
    ++ textOps
    ++ [ FillText line (cardX + 48) y ]
    ++ wave
    ++ [ SetFillStyle (Color "hsl(220, 20%, 90%)") ]
    ++ roundRect (cardX + 48) progressY progressW progressH 4
    ++ [ Fill; SetFillStyle (Color "hsl(340, 82%, 70%)") ]
    ++ roundRect (cardX + 48) progressY (progressW * progress) progressH 4
    ++ [ Fill;
         SetFillStyle (Color "hsl(222, 84%, 5%)");
         SetFont "20px Arial, sans-serif";
         FillText timeText (cardX + 48) (progressY + 30) ],
    drawFrame_next elapsed duration ).

(** *** The recording, as the browser drives it

    After [recorder.start()] three things can happen, each at a
    time [now] (milliseconds, as [Date.now()] reads it):
    [drawFrame] runs (called once when [audio.play()] settles, then
    by the browser for every requested animation frame), the audio
    element fires [ended], or a timer set by [onended] comes due
    and the browser runs its callback. *)
Inductive event :=
| Frame (now : Z)
| AudioEnded (now : Z)
| TimerFired (now : Z).

Record recording := {
  frame_requested : bool;  (* a call of [drawFrame] is outstanding *)
  timers : list Z;         (* due times of the pending [setTimeout]s *)
  stop_calls : list Z      (* times of the calls of [recorder.stop()] *)
}.

(** Right after [audio.play()] was called. *)
Definition started : recording :=
  {| frame_requested := true; timers := []; stop_calls := [] |}.

Definition handle (message : Message) (startTime : Z)
    (duration : JS.number) (st : recording) (ev : event) : recording :=
  match ev with
  | Frame now =>
      if frame_requested st then
        match snd (drawFrame message startTime duration now) with
        | RequestAnimationFrame => st
        | StopRecording =>
            {| frame_requested := false;
               timers := timers st;
               stop_calls := stop_calls st ++ [now] |}
        end
      else st
  | AudioEnded now =>
      {| frame_requested := frame_requested st;
         timers := timers st ++ [(now + 500)%Z];
         stop_calls := stop_calls st |}
  | TimerFired now =>
      match timers st with
      | due :: rest =>
          if (due <=? now)%Z then
            {| frame_requested := frame_requested st;
               timers := rest;
               stop_calls := stop_calls st ++ [now] |}
          else st
      | [] => st
      end
  end.

Definition run (message : Message) (startTime : Z)
    (duration : JS.number) (evs : list event) : recording :=
  fold_left (handle message startTime duration) evs started.

End Renderer.

(** *** Audio download and the set-up of the video export *)

(** [s] without the prefix [p], when it has it. *)
Fixpoint strip_prefix (p s : string) : option string :=
  match p with
  | "" => Some s
  | String a p' =>
      match s with
      | "" => None
      | String b s' => if Ascii.eqb a b then strip_prefix p' s' else None
      end
  end.

(** [audio_url.replace(/^audio-messages\//, '')] *)
Definition filePath_of (audio_url : string) : string :=
  match strip_prefix "audio-messages/" audio_url with
  | Some rest => rest
  | None => audio_url
  end.

(** What the two download handlers do besides drawing. *)
Inductive io :=
| Notify (title description : string)
| LogError (label : string)
| FetchUrl (url : string)
| SaveFile (name content : string)
| LoadAudio (url : string)
| StartRecorder (mimeType : string).

Section Downloads.

(** [supabase.storage.from(bucket).getPublicUrl(path).data.publicUrl] *)
Variable getPublicUrl : string -> string -> string.
(** [format(new Date(s), pattern)] of date-fns. *)
Variable format : string -> string -> string.

(** [downloadAudioFile(message)]: [fetched] is the body the fetch of
    the public URL gave, [None] when the fetch (or reading the body)
    failed. *)
Definition downloadAudioFile (message : Message) (fetched : option string)
    : list io :=
  match audio_url message with
  | None => []
  | Some url =>
      if negb (JS.truthy url) then []
      else
        [ FetchUrl (getPublicUrl "audio-messages" (filePath_of url)) ]
        ++ match fetched with
           | Some blob =>
               [ SaveFile
                   ("audio-message-"
                    +:+ format (created_at message) "yyyy-MM-dd-HHmm"
                    +:+ ".mp3") blob;
                 Notify "Success" "Audio file downloaded successfully!" ]
           | None =>
               [ LogError "Download error:";
                 Notify "Error" "Failed to download audio file" ]
           end
  end.

(** The part of [downloadVideoTemplate] that comes before the first
    frame.  [loadError] is [None] when the audio element reports
    [canplaythrough]; otherwise it is the text that [error.message]
    prints as for what [onerror] rejected with.  [ctx] tells whether
    [getContext('2d')] gave a context, [webm] what
    [MediaRecorder.isTypeSupported('video/webm')] says. *)
Definition downloadVideoTemplate_setup (message : Message)
    (loadError : option string) (ctx webm : bool) : list io :=
  match audio_url message with
  | None => []
  | Some url =>
      if negb (JS.truthy url) then []
      else
        let failed (reason : string) :=
          [ LogError "Video creation error:";
            Notify "Error" ("Failed to create video template: " +:+ reason) ] in
        [ Notify "Creating video..."
            "Please wait while we create your MP4 video with template";
          LoadAudio (getPublicUrl "audio-messages" (filePath_of url)) ]
        ++ match loadError with
           | Some reason => failed reason
           | None =>
               if negb ctx then failed "Cannot get canvas context"
               else if negb webm then failed "WebM format not supported"
               else [ StartRecorder "video/webm" ]
           end
  end.

(** [recorder.onstop]: the recorded chunks, joined, are handed to the
    browser as a file. *)
Definition recorder_onstop (message : Message) (chunks : string) : list io :=
  [ SaveFile
      ("audio-message-video-"
       +:+ format (created_at message) "yyyy-MM-dd-HHmm" +:+ ".webm") chunks;
    Notify "Success!" "MP4 video template downloaded successfully!" ].

End Downloads.

End Dashboard.

(** ** The send view ([SendMessage] in [src/unnamed/part_000]) *)

Module SendMessage.

Record Profile := {
  id : string;
  username : string;
  display_name : string
}.

(** The part of a [Blob] the code reads. *)
Record Blob := { type : string }.

(** The object handed to [supabase.from('messages').insert]; a key
    that is left out is [None]. *)
Record row := {
  recipient_id : string;
  message_text : option string;
  audio_url : option string;
  message_type : string
}.

(** What a handler does, in order. *)
Inductive effect :=
| SetSending (b : bool)
| Upload (bucket fileName : string) (body : Blob) (contentType : string)
| GetPublicUrl (bucket fileName : string)
| Insert (r : row)
| Toast (title description : string)
| ConsoleError (label : string)
| SetMessageText (s : string)
| ClearAudio.

(** The rows a run asks the store to insert. *)
Definition inserted (es : list effect) : list row :=
  flat_map (fun e => match e with Insert r => [r] | _ => [] end) es.

(** The objects a run uploads: bucket and name. *)
Definition uploaded (es : list effect) : list (string * string) :=
  flat_map (fun e =>
    match e with Upload b f _ _ => [(b, f)] | _ => [] end) es.

(** [sendTextMessage]: [profile] and [messageText] are the component
    state, [error] the answer of the store to the insert. *)
Definition sendTextMessage (profile : option Profile) (messageText : string)
    (error : option string) : list effect :=
  match profile with
  | None => []
  | Some profile =>
      if negb (JS.truthy (JS.trim messageText)) then []
      else
        [ SetSending true;
          Insert {| recipient_id := id profile;
                    message_text := Some (JS.trim messageText);
                    audio_url := None;
                    message_type := "text" |} ]
        ++ match error with
           | Some _ =>
               [ ConsoleError "Error sending message:";
                 Toast "Error" "Failed to send message" ]
           | None =>
               [ Toast "Success" "Your anonymous message has been sent!";
                 SetMessageText "" ]
           end
        ++ [ SetSending false ]
  end.

Definition extMap : gmap string string :=
  list_to_map
    [ ("audio/webm", "webm");
      ("audio/webm;codecs=opus", "webm");
      ("audio/mpeg", "mp3");
      ("audio/mp3", "mp3");
      ("audio/mp4", "m4a");
      ("audio/aac", "m4a");
      ("audio/wav", "wav");
      ("audio/ogg", "ogg");
      ("audio/ogg;codecs=opus", "ogg") ].

(** [const mime = audioBlob.type || 'audio/webm'] *)
Definition mime_of (audioBlob : Blob) : string :=
  JS.or_else (type audioBlob) "audio/webm".

(** What every object literal inherits from [Object.prototype]: the
    names, each with the text a template literal prints for its value
    (a built-in function as V8 prints it, the prototype object for
    [__proto__]).  All these values are truthy. *)
Definition Object_prototype : gmap string string :=
  list_to_map
    [ ("constructor", "function Object() { [native code] }");
      ("__proto__", "[object Object]");
      ("hasOwnProperty", "function hasOwnProperty() { [native code] }");
      ("isPrototypeOf", "function isPrototypeOf() { [native code] }");
      ("propertyIsEnumerable",
       "function propertyIsEnumerable() { [native code] }");
      ("toLocaleString", "function toLocaleString() { [native code] }");
      ("toString", "function toString() { [native code] }");
      ("valueOf", "function valueOf() { [native code] }");
      ("__defineGetter__", "function __defineGetter__() { [native code] }");
      ("__defineSetter__", "function __defineSetter__() { [native code] }");
      ("__lookupGetter__", "function __lookupGetter__() { [native code] }");
      ("__lookupSetter__", "function __lookupSetter__() { [native code] }") ].

(** [const ext = extMap[mime] || 'webm'], as [`${ext}`] prints it:
    an own key gives its string, an inherited key its (truthy) value,
    any other key [undefined] and so the fallback. *)
Definition ext_of (mime : string) : string :=
  match extMap !! mime with
  | Some e => JS.or_else e "webm"
  | None =>
      match Object_prototype !! mime with
      | Some printed => printed
      | None => "webm"
      end
  end.

(** [`${Date.now()}-${profile.id}.${ext}`] *)
Definition fileName_of (now : Z) (profile : Profile) (ext : string) : string :=
  JS.string_of_Z now +:+ "-" +:+ id profile +:+ "." +:+ ext.

(** [sendAudioMessage]: [now] is what [Date.now()] reads,
    [uploadError] and [error] the answers of the storage and of the
    message store. *)
Definition sendAudioMessage (profile : option Profile)
    (audioBlob : option Blob) (now : Z)
    (uploadError error : option string) : list effect :=
  match profile, audioBlob with
  | Some profile, Some audioBlob =>
      let mime := mime_of audioBlob in
      let ext := ext_of mime in
      let fileName := fileName_of now profile ext in
      let failed :=
        [ ConsoleError "Error sending audio message:";
          Toast "Error" "Failed to send audio message" ] in
      [ SetSending true;
        Upload "audio-messages" fileName audioBlob mime ]
      ++ match uploadError with
         | Some _ => failed
         | None =>
             [ GetPublicUrl "audio-messages" fileName;
               Insert {| recipient_id := id profile;
                         message_text := None;
                         audio_url := Some ("audio-messages/" +:+ fileName);
                         message_type := "audio" |} ]
             ++ match error with
                | Some _ => failed
                | None =>
                    [ Toast "Success"
                        "Your anonymous audio message has been sent!";
                      ClearAudio ]
                end
         end
      ++ [ SetSending false ]
  | _, _ => []
  end.

(** *** Recording and choosing a file *)

(** [candidates] of [startRecording]. *)
Definition candidates : list string :=
  [ "audio/webm;codecs=opus"; "audio/ogg;codecs=opus"; "audio/mp4" ].

(** [mimeType] of [startRecording]; [isTypeSupported] is [None] when
    [MediaRecorder] or its [isTypeSupported] is missing. *)
Definition mimeType_of (isTypeSupported : option (string -> bool)) : string :=
  match isTypeSupported with
  | Some supported =>
      match List.find supported candidates with
      | Some t => JS.or_else t ""
      | None => ""
      end
  | None => ""
  end.

(** [detectedType] of [mediaRecorder.onstop]; [recorderMime] is
    [mediaRecorder.mimeType]. *)
Definition detectedType (recorderMime mimeType : string) : string :=
  JS.or_else recorderMime (JS.or_else mimeType "audio/webm").

Definition lower_char (c : ascii) : ascii :=
  let n := N_of_ascii c in
  if ((65 <=? n) && (n <=? 90))%N then ascii_of_N (n + 32) else c.

Definition printable (c : ascii) : bool :=
  let n := N_of_ascii c in ((32 <=? n) && (n <=? 126))%N.

Fixpoint lower (s : string) : string :=
  match s with
  | "" => ""
  | String c s' => String (lower_char c) (lower s')
  end.

(** The [type] of [new Blob(parts, { type })]: empty when [type] has a
    character outside U+0020..U+007E, in ASCII lower case otherwise. *)
Definition Blob_type (type : string) : string :=
  if forallb printable (list_ascii_of_string type) then lower type else "".

(** The blob [mediaRecorder.onstop] builds. *)
Definition recorded_blob (isTypeSupported : option (string -> bool))
    (recorderMime : string) : Blob :=
  {| type := Blob_type
               (detectedType recorderMime (mimeType_of isTypeSupported)) |}.

(** The part of a [File] the code reads. *)
Record File := { file_blob : Blob; size : Z }.

(** The audio part of the component state. *)
Record audio_state := { audioBlob : option Blob; isRecording : bool }.

(** What [handleAudioFileSelected] leaves: the state, the toast shown
    and whether the file input was cleared. *)
Record selection := {
  selected : audio_state;
  refusal : option (string * string);
  input_cleared : bool
}.

(** [handleAudioFileSelected]: [file] is [e.target.files?.[0]]. *)
Definition handleAudioFileSelected (file : option File) (st : audio_state)
    : selection :=
  match file with
  | None => {| selected := st; refusal := None; input_cleared := false |}
  | Some file =>
      let maxBytes := (10 * 1024 * 1024)%Z in
      if (maxBytes <? size file)%Z then
        {| selected := st;
           refusal := Some ("File terlalu besar", "Maksimum 10MB");
           input_cleared := true |}
      else
        {| selected := {| audioBlob := Some (file_blob file);
                          isRecording := false |};
           refusal := None;
           input_cleared := false |}
  end.

(** [disabled={!messageText.trim() || sending}] of the button that
    runs [sendTextMessage]. *)
Definition sendText_disabled (messageText : string) (sending : bool) : bool :=
  negb (JS.truthy (JS.trim messageText)) || sending.

End SendMessage.

(** ** The serverless endpoint ([handler] in [src/api/messages.ts]) *)

Module Api.

Section Handler.

(** A JSON value, and [{}]. *)
Variable json : Type.
Variable empty_object : json.

Record request := { method : option string; body : option json }.

Inductive payload :=
| Items (items : list json)
| Saved (saved : json)
| Plain (text : string).

Record response := {
  status : Z;
  headers : list (string * string);
  sent : payload
}.

Definition handler (req : request) : response :=
  if bool_decide (method req = Some "GET") then
    {| status := 200; headers := []; sent := Items [] |}
  else if bool_decide (method req = Some "POST") then
    {| status := 201; headers := [];
       sent := Saved (match body req with
                      | Some b => b
                      | None => empty_object
                      end) |}
  else
    {| status := 405; headers := [("Allow", "GET,POST")];
       sent := Plain "Method Not Allowed" |}.

End Handler.

End Api.

(** ** Notions the statements below are phrased with *)

Module Spec.

(** The words of a text that are not empty, in order. *)
Definition tokens (s : string) : list string :=
  filter (fun w => w <> "") (JS.split_space s).

(** Every run of spaces becomes one space. *)
Fixpoint collapse_spaces (s : string) : string :=
  match s with
  | "" => ""
  | String c s' =>
      if JS.is_space c then
        match s' with
        | "" => String c ""
        | String c' _ =>
            if JS.is_space c' then collapse_spaces s'
            else String c (collapse_spaces s')
        end
      else String c (collapse_spaces s')
  end.

Fixpoint strip_leading (s : string) : string :=
  match s with
  | "" => ""
  | String c s' => if JS.is_space c then strip_leading s' else s
  end.

Fixpoint strip_trailing (s : string) : string :=
  match s with
  | "" => ""
  | String c s' =>
      match strip_trailing s' with
      | "" => if JS.is_space c then "" else String c ""
      | r => String c r
      end
  end.

(** White-space normalisation: runs of spaces collapsed, leading and
    trailing spaces removed. *)
Definition normalize (s : string) : string :=
  strip_leading (strip_trailing (collapse_spaces s)).

(** No character of [s] is a space. *)
Fixpoint no_space (s : string) : Prop :=
  match s with
  | "" => True
  | String c s' => JS.is_space c = false /\ no_space s'
  end.

(** The words of [ws], each one preceded by a space. *)
Fixpoint spaced (ws : list string) : string :=
  match ws with
  | [] => ""
  | w :: rest => " " +:+ w +:+ spaced rest
  end.

(** The words of [ws], each one followed by a space. *)
Fixpoint trailing (ws : list string) : string :=
  match ws with
  | [] => ""
  | w :: rest => w +:+ " " +:+ trailing rest
  end.

(** The strings [ls] one after the other, nothing in between. *)
Definition glue (ls : list string) : string :=
  fold_right String.append "" ls.

(** A line after which the words of whatever follows stay apart. *)
Definition closed (line : string) : Prop :=
  forall s, tokens (line +:+ s) = tokens line ++ tokens s.



(** The greedy wrap as the specification words it: words are added
    to the line, and whenever the line with the next word is wider
    than [maxWidth] the line is flushed and the word starts the next
    one.  The result lists the lines flushed, the last line included. *)
Fixpoint greedy_lines (measure : string -> JS.number) (maxWidth : JS.number)
    (words : list string) (line : string) : list string :=
  match words with
  | [] => [line]
  | w :: rest =>
      if JS.gt (measure (line +:+ w +:+ " ")) maxWidth
      then line :: greedy_lines measure maxWidth rest (w +:+ " ")
      else greedy_lines measure maxWidth rest (line +:+ w +:+ " ")
  end.

Definition greedy_wrap (measure : string -> JS.number) (maxWidth : JS.number)
    (text : string) : list string :=
  greedy_lines measure maxWidth (JS.split_space text) "".

(** A text field that holds nothing to show: [null], [''], or white
    space only. *)
Definition blank (t : option string) : Prop :=
  match t with
  | None => True
  | Some s =>
      exists ws, Forall (fun w => w ∈ JS.white_space) ws
                 /\ s = fold_right String.append "" ws
  end.

(** The fixed table from MIME type to file extension, with its
    fallback. *)
Definition extension (mime : string) : string :=
  if String.eqb mime "audio/webm" then "webm"
  else if String.eqb mime "audio/webm;codecs=opus" then "webm"
  else if String.eqb mime "audio/mpeg" then "mp3"
  else if String.eqb mime "audio/mp3" then "mp3"
  else if String.eqb mime "audio/mp4" then "m4a"
  else if String.eqb mime "audio/aac" then "m4a"
  else if String.eqb mime "audio/wav" then "wav"
  else if String.eqb mime "audio/ogg" then "ogg"
  else if String.eqb mime "audio/ogg;codecs=opus" then "ogg"
  else "webm".

(** A metric that charges ten units a character. *)
Definition ten_per_char (font text : string) : JS.number :=
  inject_Z (10 * Z.of_nat (String.length text)).

(** A browser whose other answers are constant. *)
Definition flat_sin (a : JS.number) : JS.number := 0%Q.
Definition flat_number (a : JS.number) : string := "0".
Definition flat_style (name : string) : string := "".
Definition flat_random (k : nat) : JS.number := (1 # 2)%Q.
Definition flat_format (date pattern : string) : string := date.
Definition flat_encode (ops : list Canvas.op) (mime : string)
    (quality : JS.number) : string := "data:image/jpeg;base64,".

(** An audio message without text. *)
Definition voice_note : Dashboard.Message :=
  {| Dashboard.id := "m1";
     Dashboard.message_text := None;
     Dashboard.audio_url := Some "audio-messages/1700000000000-u1.webm";
     Dashboard.message_type := "audio";
     Dashboard.is_read := false;
     Dashboard.created_at := "2025-08-10T01:24:29Z" |}.

(** A text message. *)
Definition note : Dashboard.Message :=
  {| Dashboard.id := "m2";
     Dashboard.message_text := Some "halo apa kabar";
     Dashboard.audio_url := None;
     Dashboard.message_type := "text";
     Dashboard.is_read := false;
     Dashboard.created_at := "2025-08-10T01:30:00Z" |}.

(** Why [recorder.stop()] may be called at time [t]: a frame ran at
    [t], at least [d + 1] seconds after the start, or a timer came
    due at [t], at least 500 ms after the audio ended. *)
Definition caused (startTime : Z) (d : JS.number)
    (evs : list Dashboard.event) (t : Z) : Prop :=
  (Dashboard.Frame t ∈ evs /\ (d + 1 <= Dashboard.elapsed startTime t)%Q)
  \/ (Dashboard.TimerFired t ∈ evs
      /\ exists e, Dashboard.AudioEnded e ∈ evs /\ (e + 500 <= t)%Z).

(** What holds of a recording after the events [evs]. *)
Definition recording_inv (startTime : Z) (d : JS.number)
    (evs : list Dashboard.event) (st : Dashboard.recording) : Prop :=
  (forall t, t ∈ Dashboard.stop_calls st -> caused startTime d evs t)
  /\ (forall due, due ∈ Dashboard.timers st ->
        exists e, Dashboard.AudioEnded e ∈ evs /\ due = (e + 500)%Z)
  /\ (Dashboard.frame_requested st = false -> Dashboard.stop_calls st <> []).

(** The calls [run] occur in [ops], in one piece. *)
Definition contains (ops run : list Canvas.op) : Prop :=
  exists before after, ops = before ++ run ++ after.

(** A recipient, a recording in MP4, and a text row. *)
Definition recipient : SendMessage.Profile :=
  {| SendMessage.id := "u1";
     SendMessage.username := "irwan";
     SendMessage.display_name := "Irwan" |}.

Definition mp4_blob : SendMessage.Blob := {| SendMessage.type := "audio/mp4" |}.

Definition hi_row : SendMessage.row :=
  {| SendMessage.recipient_id := "u1";
     SendMessage.message_text := Some "hi";
     SendMessage.audio_url := None;
     SendMessage.message_type := "text" |}.

(** [n] frames, one every [ms] milliseconds from time 0 on. *)
Definition frames_every (ms : Z) (n : nat) : list Dashboard.event :=
  map (fun k => Dashboard.Frame (ms * Z.of_nat k)) (seq 0 n).

(** [s.split(sep)] for a separator of one character. *)
Fixpoint split_at (sep : ascii) (s : string) : list string :=
  match s with
  | "" => [""]
  | String c s' =>
      if Ascii.eqb c sep then "" :: split_at sep s'
      else match split_at sep s' with
           | w :: ws => String c w :: ws
           | [] => [String c ""]
           end
  end.

(** Is the call one that selects a gradient as fill style? *)
Definition selects_gradient (o : Canvas.op) : bool :=
  match o with
  | Canvas.SetFillStyle (Canvas.LinearGradient _ _ _ _ _) => true
  | _ => false
  end.

(** Is the message unread? *)
Definition unread (msg : Dashboard.Message) : bool :=
  negb (Dashboard.is_read msg).

(** The toasts of a run of the send view, in order. *)
Definition toasts (es : list SendMessage.effect) : list (string * string) :=
  flat_map (fun e =>
    match e with SendMessage.Toast t d => [(t, d)] | _ => [] end) es.

(** The notifications of a download handler, in order. *)
Definition notices (es : list Dashboard.io) : list (string * string) :=
  flat_map (fun e =>
    match e with Dashboard.Notify t d => [(t, d)] | _ => [] end) es.

(** The files a download handler hands to the browser. *)
Definition saved_files (es : list Dashboard.io) : list string :=
  flat_map (fun e =>
    match e with Dashboard.SaveFile n _ => [n] | _ => [] end) es.

(** The recorders a run starts. *)
Definition recorders (es : list Dashboard.io) : list string :=
  flat_map (fun e =>
    match e with Dashboard.StartRecorder m => [m] | _ => [] end) es.

(** How often the audio ended in a run of events. *)
Fixpoint ended_count (evs : list Dashboard.event) : nat :=
  match evs with
  | [] => 0
  | Dashboard.AudioEnded _ :: evs' => S (ended_count evs')
  | _ :: evs' => ended_count evs'
  end.

(** A file of eleven MiB and one of exactly ten. *)
Definition big_file : SendMessage.File :=
  {| SendMessage.file_blob := {| SendMessage.type := "audio/mpeg" |};
     SendMessage.size := 11 * 1024 * 1024 |}.

Definition full_file : SendMessage.File :=
  {| SendMessage.file_blob := {| SendMessage.type := "audio/mpeg" |};
     SendMessage.size := 10 * 1024 * 1024 |}.


(** The calls that write text, with their positions. *)
Definition is_text (o : Canvas.op) : bool :=
  match o with
  | Canvas.FillText _ _ _ => true
  | _ => false
  end.

Definition text_calls (ops : list Canvas.op) : list Canvas.op :=
  List.filter is_text ops.


(** An audio message whose text is an ideographic space (U+3000) and a
    space. *)
Definition blank_note : Dashboard.Message :=
  {| Dashboard.id := "m4";
     Dashboard.message_text := Some (JS.bytes [227; 128; 128; 32]%N);
     Dashboard.audio_url := Some "audio-messages/1700000000000-u1.webm";
     Dashboard.message_type := "audio";
     Dashboard.is_read := false;
     Dashboard.created_at := "2025-08-10T01:24:29Z" |}.

(** The public URL of an object, bucket and path joined. *)
Definition flat_url (bucket path : string) : string :=
  "https://storage/" +:+ bucket +:+ "/" +:+ path.

End Spec.

(** * Properties *)

#[local] Arguments String.append !s1 s2 : simpl nomatch.

(** ** Strings: splitting at spaces and joining *)

Section Strings.

Lemma append_assoc (a b c : string) : (a +:+ b) +:+ c = a +:+ (b +:+ c).
Proof. induction a as [|x a IH]; simpl; [reflexivity | now rewrite IH]. Qed.

Lemma append_empty_r (a : string) : a +:+ "" = a.
Proof. induction a as [|x a IH]; simpl; [reflexivity | now rewrite IH]. Qed.

Lemma split_space_cons (s : string) :
  exists w ws, JS.split_space s = w :: ws.
Proof.
  induction s as [|c s [w [ws IH]]]; simpl; [now eauto|].
  destruct (JS.is_space c); [now eauto|]. rewrite IH. now eauto.
Qed.

Lemma is_space_true (c : ascii) : JS.is_space c = true -> c = " "%char.
Proof. unfold JS.is_space. apply Ascii.eqb_eq. Qed.

(** [s.split(' ').join(' ')] gives [s] back. *)
Lemma join_split_space (s : string) :
  JS.join " " (JS.split_space s) = s.
Proof.
  unfold JS.join. induction s as [|c s IH]; [reflexivity|].
  simpl JS.split_space. destruct (JS.is_space c) eqn:Hc.
  - apply is_space_true in Hc. subst c.
    destruct (split_space_cons s) as [w [ws Hs]].
    rewrite Hs in *. simpl. simpl in IH. now rewrite IH.
  - destruct (split_space_cons s) as [w [ws Hs]].
    rewrite Hs in *. destruct ws as [|w' ws]; simpl in *; now rewrite <- IH.
Qed.

Lemma split_space_app (a b : string) :
  JS.split_space (a +:+ " " +:+ b) = JS.split_space a ++ JS.split_space b.
Proof.
  induction a as [|c a IH]; [reflexivity|].
  simpl in *. destruct (JS.is_space c).
  - now rewrite IH.
  - rewrite IH. destruct (split_space_cons a) as [w [ws ->]]. reflexivity.
Qed.

Lemma tokens_app (a b : string) :
  Spec.tokens (a +:+ " " +:+ b) = Spec.tokens a ++ Spec.tokens b.
Proof. unfold Spec.tokens. now rewrite split_space_app, filter_app. Qed.

Lemma tokens_empty : Spec.tokens "" = [].
Proof. reflexivity. Qed.

Lemma tokens_space_r (a : string) : Spec.tokens (a +:+ " ") = Spec.tokens a.
Proof.
  pose proof (tokens_app a "") as H. rewrite tokens_empty, app_nil_r in H.
  exact H.
Qed.

Lemma tokens_join (ls : list string) :
  Spec.tokens (JS.join " " ls) = flat_map Spec.tokens ls.
Proof.
  unfold JS.join. induction ls as [|l ls IH]; [reflexivity|].
  destruct ls as [|l' ls].
  - simpl. now rewrite app_nil_r.
  - change (String.concat " " (l :: l' :: ls))
      with (l +:+ " " +:+ String.concat " " (l' :: ls)).
    rewrite tokens_app, IH. reflexivity.
Qed.

Lemma split_space_no_space (s : string) :
  Forall Spec.no_space (JS.split_space s).
Proof.
  induction s as [|c s IH]; simpl.
  - repeat constructor.
  - destruct (JS.is_space c) eqn:Hc.
    + constructor; [exact I | exact IH].
    + destruct (split_space_cons s) as [w [ws Hs]]. rewrite Hs in *.
      inversion IH; subst. constructor; [split; assumption | assumption].
Qed.

Lemma concat_spaced (w : string) (l : list string) :
  String.concat " " (w :: l) = w +:+ Spec.spaced l.
Proof.
  revert w. induction l as [|t l IH]; intros w.
  - simpl. now rewrite append_empty_r.
  - change (String.concat " " (w :: t :: l))
      with (w +:+ " " +:+ String.concat " " (t :: l)).
    now rewrite IH.
Qed.

Lemma strip_trailing_cons (c : ascii) (x : string) :
  JS.is_space c = false ->
  Spec.strip_trailing (String c x) = String c (Spec.strip_trailing x).
Proof. intros Hc. simpl. rewrite Hc. now destruct (Spec.strip_trailing x). Qed.

Lemma collapse_spaces_run (c c' : ascii) (s : string) :
  JS.is_space c = true -> JS.is_space c' = true ->
  Spec.collapse_spaces (String c (String c' s))
  = Spec.collapse_spaces (String c' s).
Proof.
  intros Hc Hc'.
  change (Spec.collapse_spaces (String c (String c' s)))
    with (if JS.is_space c
          then if JS.is_space c' then Spec.collapse_spaces (String c' s)
               else String c (Spec.collapse_spaces (String c' s))
          else String c (Spec.collapse_spaces (String c' s))).
  now rewrite Hc, Hc'.
Qed.

Lemma collapse_spaces_last (c c' : ascii) (s : string) :
  JS.is_space c' = false ->
  Spec.collapse_spaces (String c (String c' s))
  = String c (Spec.collapse_spaces (String c' s)).
Proof.
  intros Hc'.
  change (Spec.collapse_spaces (String c (String c' s)))
    with (if JS.is_space c
          then if JS.is_space c' then Spec.collapse_spaces (String c' s)
               else String c (Spec.collapse_spaces (String c' s))
          else String c (Spec.collapse_spaces (String c' s))).
  rewrite Hc'. now destruct (JS.is_space c).
Qed.

Lemma collapse_spaces_cons (c : ascii) (s : string) :
  JS.is_space c = false ->
  Spec.collapse_spaces (String c s) = String c (Spec.collapse_spaces s).
Proof. intros Hc. simpl. now rewrite Hc. Qed.

Lemma strip_trailing_collapse (s : string) :
  forall w ws, JS.split_space s = w :: ws ->
  Spec.strip_trailing (Spec.collapse_spaces s)
  = w +:+ Spec.spaced (filter (fun w => w <> "") ws).
Proof.
  induction s as [|c s IH]; intros w ws Hs.
  - simpl in Hs. injection Hs as <- <-. reflexivity.
  - destruct (split_space_cons s) as [w' [ws' Hs']].
    simpl in Hs. rewrite Hs' in Hs.
    destruct (JS.is_space c) eqn:Hc.
    + injection Hs as <- <-. specialize (IH _ _ Hs').
      destruct s as [|c' s'].
      * simpl in Hs'. injection Hs' as <- <-. simpl. rewrite Hc. simpl.
        now rewrite Hc.
      * simpl in Hs'. destruct (JS.is_space c') eqn:Hc'.
        -- injection Hs' as <- <-. rewrite filter_cons_False by tauto.
           rewrite collapse_spaces_run by assumption. exact IH.
        -- destruct (split_space_cons s') as [w'' [ws'' E]]. rewrite E in Hs'.
           injection Hs' as <- <-.
           rewrite filter_cons_True by discriminate.
           rewrite collapse_spaces_last by assumption.
           cbn [Spec.strip_trailing]. rewrite IH, Hc.
           apply is_space_true in Hc. subst c. reflexivity.
    + injection Hs as <- <-.
      rewrite collapse_spaces_cons by assumption.
      rewrite strip_trailing_cons by assumption.
      now rewrite (IH _ _ Hs').
Qed.

Lemma strip_leading_word (t rest : string) :
  t <> "" -> Spec.no_space t ->
  Spec.strip_leading (t +:+ rest) = t +:+ rest.
Proof.
  destruct t as [|c t]; [congruence|]. intros _ [Hc _]. simpl. now rewrite Hc.
Qed.

(** Normalising is keeping the non-empty words, one space apart. *)
Lemma normalize_tokens (s : string) :
  Spec.normalize s = JS.join " " (Spec.tokens s).
Proof.
  unfold Spec.normalize, Spec.tokens, JS.join.
  destruct (split_space_cons s) as [w [ws Hs]].
  pose proof (split_space_no_space s) as Hns.
  rewrite (strip_trailing_collapse s w ws Hs), Hs in *.
  inversion Hns as [|? ? Hw Hws]; subst.
  destruct (decide (w = "")) as [->|Hne].
  - rewrite filter_cons_False by tauto. simpl.
    assert (Hf : Forall (fun w => w <> "" /\ Spec.no_space w)
                   (filter (fun w => w <> "") ws)).
    { apply Forall_forall. intros x Hx.
      apply list_elem_of_filter in Hx as [Hx Hin]. split; [assumption|].
      rewrite Forall_forall in Hws. now apply Hws. }
    destruct (filter (fun w => w <> "") ws) as [|t l]; [reflexivity|].
    inversion Hf as [|? ? [Ht Hnt] _]; subst.
    rewrite concat_spaced. cbn [Spec.spaced].
    change (" " +:+ t +:+ Spec.spaced l) with (String " " (t +:+ Spec.spaced l)).
    cbn [Spec.strip_leading]. change (JS.is_space " ") with true. cbv iota.
    now apply strip_leading_word.
  - rewrite filter_cons_True by assumption. rewrite concat_spaced.
    now apply strip_leading_word.
Qed.

End Strings.

(** ** The wrap loop *)

Section Wrap.

Import Canvas Dashboard Spec.

Variable measureText : string -> string -> JS.number.
Variables (font : string) (x maxWidth lineHeight : JS.number).

Local Notation "'loop'" :=
  (wrapText_loop measureText font x maxWidth lineHeight).
Local Notation "'greedy'" := (Spec.greedy_lines (measureText font) maxWidth).

Lemma gt_false (a b : JS.number) : JS.gt a b = false <-> (a <= b)%Q.
Proof.
  unfold JS.gt. rewrite <- Qle_bool_iff.
  destruct (Qle_bool a b); simpl; intuition congruence.
Qed.

Lemma gt_true (a b : JS.number) : JS.gt a b = true <-> (b < a)%Q.
Proof.
  unfold JS.gt. destruct (Qle_bool a b) eqn:E; simpl.
  - apply Qle_bool_iff in E. split; [discriminate|].
    intros H. exfalso. now apply (Qlt_not_le _ _ H).
  - split; [intros _|reflexivity]. apply Qnot_le_lt. intros H.
    apply Qle_bool_iff in H. congruence.
Qed.

(** From the second word on the loop is the greedy wrap: the texts
    it draws, followed by the line it leaves, are the greedy lines. *)
Lemma wrapText_loop_greedy (words : list string) :
  forall n line drawY, (0 < n)%nat ->
  texts (fst (loop words n line drawY))
    ++ [fst (snd (loop words n line drawY))]
  = greedy words line.
Proof.
  induction words as [|w rest IH]; intros n line drawY Hn; [reflexivity|].
  simpl. destruct n as [|n]; [lia|].
  change (0 <? S n)%nat with true. rewrite andb_true_r.
  destruct (JS.gt _ maxWidth).
  - specialize (IH (S (S n)) (w +:+ " ") (drawY + lineHeight)%Q).
    destruct (loop rest (S (S n)) (w +:+ " ") (drawY + lineHeight)%Q)
      as [ops fin]. simpl in *. f_equal. apply IH. lia.
  - apply IH. lia.
Qed.

(** The loop draws texts only, all at abscissa [x]. *)
Lemma wrapText_loop_ops (words : list string) :
  forall n line drawY,
  Forall (fun o => exists t y, o = FillText t x y)
    (fst (loop words n line drawY)).
Proof.
  induction words as [|w rest IH]; intros n line drawY; simpl.
  - constructor.
  - destruct (JS.gt _ maxWidth && (0 <? n)%nat).
    + specialize (IH (S n) (w +:+ " ") (drawY + lineHeight)%Q).
      destruct (loop rest (S n) (w +:+ " ") (drawY + lineHeight)%Q)
        as [ops fin]. simpl in *. constructor; eauto.
    + apply IH.
Qed.


Lemma wrapText_lines (text : string) (y : JS.number) :
  exists w rest,
    JS.split_space text = w :: rest /\
    texts (fst (wrapText measureText font text x y maxWidth lineHeight))
    = greedy rest (w +:+ " ").
Proof.
  destruct (split_space_cons text) as [w [rest Hs]].
  exists w, rest. split; [assumption|].
  unfold wrapText. rewrite Hs. simpl.
  rewrite andb_false_r.
  pose proof (wrapText_loop_greedy rest 1 (w +:+ " ") y) as H.
  pose proof (wrapText_loop_ops rest 1 (w +:+ " ") y) as Ho.
  destruct (loop rest 1 (w +:+ " ") y) as [ops [line drawY]].
  simpl in *. rewrite <- H by lia. clear H.
  induction Ho as [|o ops [t [y' ->]] _ IH]; simpl; [reflexivity|].
  now rewrite IH.
Qed.

Lemma greedy_lines_glue (words : list string) :
  forall line,
  Spec.glue (greedy words line) = line +:+ Spec.trailing words.
Proof.
  induction words as [|w rest IH]; intros line; simpl.
  - reflexivity.
  - destruct (JS.gt _ maxWidth); simpl; rewrite IH;
      now rewrite !append_assoc.
Qed.

Lemma closed_empty : closed "".
Proof. intros s. reflexivity. Qed.

Lemma closed_extend (line w : string) :
  closed line -> closed (line +:+ w +:+ " ").
Proof.
  intros Hl s. rewrite !append_assoc.
  rewrite !Hl, tokens_app, tokens_space_r.
  now rewrite app_assoc.
Qed.

Lemma greedy_lines_tokens (words : list string) :
  forall line, closed line ->
  flat_map Spec.tokens (greedy words line)
  = Spec.tokens (line +:+ Spec.trailing words).
Proof.
  induction words as [|w rest IH]; intros line Hl; simpl.
  - now rewrite app_nil_r, append_empty_r.
  - destruct (JS.gt _ maxWidth); simpl.
    + rewrite IH by apply (closed_extend "" w closed_empty).
      now rewrite Hl, append_assoc.
    + rewrite IH by now apply closed_extend.
      now rewrite !append_assoc.
Qed.

Lemma trailing_join (w : string) (rest : list string) :
  Spec.trailing (w :: rest) = JS.join " " (w :: rest) +:+ " ".
Proof.
  unfold JS.join. revert w. induction rest as [|w' rest IH]; intros w.
  - reflexivity.
  - change (String.concat " " (w :: w' :: rest))
      with (w +:+ " " +:+ String.concat " " (w' :: rest)).
    rewrite !append_assoc, <- IH. reflexivity.
Qed.

Lemma greedy_lines_fit (all words : list string) :
  forall line,
  (forall w, w ∈ words -> w ∈ all) ->
  ((measureText font line <= maxWidth)%Q
   \/ exists w, w ∈ all /\ line = w +:+ " ") ->
  Forall (fun l => (measureText font l <= maxWidth)%Q
                   \/ exists w, w ∈ all /\ l = w +:+ " ")
    (greedy words line).
Proof.
  induction words as [|w rest IH]; intros line Hsub Hline; simpl.
  - now constructor.
  - assert (Hw : w ∈ all) by (apply Hsub; left).
    assert (Hrest : forall w', w' ∈ rest -> w' ∈ all)
      by (intros w' Hw'; apply Hsub; now right).
    destruct (JS.gt _ maxWidth) eqn:E.
    + constructor; [assumption|]. apply IH; [assumption|]. right. eauto.
    + apply IH; [assumption|]. left. now apply gt_false.
Qed.

End Wrap.

Section WrapText.

Import Canvas Dashboard.

Variable measureText : string -> string -> JS.number.

(** The loop written out in [drawFrame] is the loop of [wrapText]
    under the font of the message text and a line height of 35. *)
Lemma drawFrame_wrap_wrapText_loop (x maxWidth : JS.number)
    (words : list string) :
  forall n line y,
  drawFrame_wrap measureText x maxWidth words n line y
  = wrapText_loop measureText "28px Arial, sans-serif" x maxWidth 35%Q
      words n line y.
Proof.
  induction words as [|w rest IH]; intros n line y; simpl; [reflexivity|].
  now rewrite !IH.
Qed.

(** The concatenation of the lines [wrapText] draws is the text
    followed by one space. *)
Lemma wrapText_glue (font text : string) (x y maxWidth lineHeight : JS.number) :
  Spec.glue
    (texts (fst (wrapText measureText font text x y maxWidth lineHeight)))
  = text +:+ " ".
Proof.
  destruct (wrapText_lines measureText font x maxWidth lineHeight text y)
    as [w [rest [Hs ->]]].
  rewrite greedy_lines_glue, append_assoc.
  change (w +:+ " " +:+ Spec.trailing rest) with (Spec.trailing (w :: rest)).
  now rewrite trailing_join, <- Hs, join_split_space.
Qed.

Lemma wrapText_tokens (font text : string) (x y maxWidth lineHeight : JS.number) :
  flat_map Spec.tokens
    (texts (fst (wrapText measureText font text x y maxWidth lineHeight)))
  = Spec.tokens text.
Proof.
  destruct (wrapText_lines measureText font x maxWidth lineHeight text y)
    as [w [rest [Hs ->]]].
  rewrite greedy_lines_tokens by apply (closed_extend "" w closed_empty).
  rewrite append_assoc.
  change (w +:+ " " +:+ Spec.trailing rest) with (Spec.trailing (w :: rest)).
  now rewrite trailing_join, <- Hs, join_split_space, tokens_space_r.
Qed.

(** C1, as amended: [wrapText] puts the first word of the text on
    the first line whatever its width, drawing nothing before it; from
    the second word on it is the greedy wrap: it measures the line
    extended by the next word and, when that is wider than [maxWidth],
    draws the line and starts the next one with the word.  Hence
    every line drawn fits in [maxWidth] or is a single word followed
    by a space.  The loop inside [drawFrame] draws the same lines. *)
Theorem wrapText_greedy_after_first_word
    (font text : string) (x y maxWidth lineHeight : JS.number) :
  (exists w rest,
     JS.split_space text = w :: rest /\
     texts (fst (wrapText measureText font text x y maxWidth lineHeight))
     = Spec.greedy_lines (measureText font) maxWidth rest (w +:+ " "))
  /\ Forall (fun l => (measureText font l <= maxWidth)%Q
                      \/ exists w, w ∈ JS.split_space text /\ l = w +:+ " ")
       (texts (fst (wrapText measureText font text x y maxWidth lineHeight)))
  /\ (let r := drawFrame_wrap measureText x maxWidth
                 (JS.split_space text) 0 "" y in
      texts (fst r) ++ [fst (snd r)]
      = texts (fst (wrapText measureText "28px Arial, sans-serif" text
                      x y maxWidth 35%Q))).
Proof.
  split; [apply wrapText_lines|]. split.
  - destruct (wrapText_lines measureText font x maxWidth lineHeight text y)
      as [w [rest [Hs ->]]].
    apply greedy_lines_fit.
    + intros w' Hw'. rewrite Hs. now right.
    + right. exists w. split; [rewrite Hs; left | reflexivity].
  - cbv zeta. rewrite drawFrame_wrap_wrapText_loop. unfold wrapText.
    destruct (wrapText_loop _ _ _ _ _ _ _ _ _) as [ops [line drawY]].
    simpl. clear. induction ops as [|o ops IH]; [reflexivity|].
    simpl. rewrite <- IH. now destruct o.
Qed.


(** C4: joining the lines [wrapText] draws with single spaces gives
    the text up to white-space normalisation, and the non-empty words
    of the joined lines are those of the text, in the same order and
    number. *)
Theorem wrapText_join_normalized
    (font text : string) (x y maxWidth lineHeight : JS.number) :
  let lines :=
    texts (fst (wrapText measureText font text x y maxWidth lineHeight)) in
  Spec.normalize (JS.join " " lines) = Spec.normalize text
  /\ Spec.tokens (JS.join " " lines) = Spec.tokens text.
Proof.
  cbv zeta.
  assert (H : Spec.tokens
                (JS.join " "
                   (texts (fst (wrapText measureText font text x y
                                  maxWidth lineHeight))))
              = Spec.tokens text)
    by (rewrite tokens_join; apply wrapText_tokens).
  split; [|exact H]. now rewrite !normalize_tokens, H.
Qed.

End WrapText.

(** C1: with a first word wider than the available width the spec's
    greedy wrap flushes the (empty) current line first; [wrapText]
    draws nothing before that word. *)
Lemma wrapText_first_word_not_flushed :
  JS.gt (Spec.ten_per_char "400 36px Inter" ("" +:+ "hello" +:+ " ")) 20%Q
  = true
  /\ Canvas.texts
       (fst (Dashboard.wrapText Spec.ten_per_char "400 36px Inter" "hello"
               120%Q 278%Q 20%Q 48%Q))
     = ["hello "]
  /\ Spec.greedy_wrap (Spec.ten_per_char "400 36px Inter") 20%Q "hello"
     = [""; "hello "]
  /\ Canvas.texts
       (fst (Dashboard.wrapText Spec.ten_per_char "400 36px Inter" "hello"
               120%Q 278%Q 20%Q 48%Q))
     <> Spec.greedy_wrap (Spec.ten_per_char "400 36px Inter") 20%Q "hello".
Proof. repeat split; try reflexivity. vm_compute. discriminate. Qed.



(** ** The frame callback of the video export *)

Section Frames.

Import Canvas Dashboard.
Local Open Scope Q_scope.

Ltac split3 := split; [|split].

Lemma lt_true (a b : JS.number) : JS.lt a b = true <-> a < b.
Proof.
  unfold JS.lt. destruct (Qle_bool b a) eqn:E; simpl.
  - apply Qle_bool_iff in E. split; [discriminate|].
    intros H. exfalso. now apply (Qlt_not_le _ _ H).
  - split; [intros _|reflexivity]. apply Qnot_le_lt. intros H.
    apply Qle_bool_iff in H. congruence.
Qed.

Lemma lt_false (a b : JS.number) : JS.lt a b = false <-> b <= a.
Proof.
  unfold JS.lt. rewrite <- Qle_bool_iff.
  destruct (Qle_bool b a); simpl; intuition congruence.
Qed.




Section Recording.

Variable measureText : string -> string -> JS.number.
Variable sin : JS.number -> JS.number.
Variable PI : JS.number.
Variable number_to_string : JS.number -> string.
Variables (message : Message) (startTime : Z) (duration : JS.number).

Local Notation "'frame'" :=
  (drawFrame measureText sin PI number_to_string message startTime duration).
Local Notation "'on'" :=
  (handle measureText sin PI number_to_string message startTime duration).
Local Notation "'after'" :=
  (run measureText sin PI number_to_string message startTime duration).

Lemma drawFrame_snd (now : Z) :
  snd (frame now) = drawFrame_next (elapsed startTime now) duration.
Proof.
  unfold drawFrame.
  destruct (drawFrame_wrap _ _ _ _ _ _ _) as [ops [line y]]. reflexivity.
Qed.

Lemma drawFrame_continues (now : Z) :
  snd (frame now) = RequestAnimationFrame
  <-> elapsed startTime now < duration + 1.
Proof.
  rewrite drawFrame_snd. unfold drawFrame_next.
  destruct (JS.lt _ _) eqn:E.
  - apply lt_true in E. tauto.
  - apply lt_false in E. split; [discriminate|].
    intros H. exfalso. now apply (Qlt_not_le _ _ H).
Qed.

Lemma drawFrame_stops (now : Z) :
  snd (frame now) = StopRecording
  <-> duration + 1 <= elapsed startTime now.
Proof.
  rewrite drawFrame_snd. unfold drawFrame_next.
  destruct (JS.lt _ _) eqn:E.
  - apply lt_true in E. split; [discriminate|].
    intros H. exfalso. now apply (Qlt_not_le _ _ E).
  - apply lt_false in E. tauto.
Qed.

Lemma run_snoc (evs : list event) (ev : event) :
  after (evs ++ [ev]) = on (after evs) ev.
Proof. unfold run. now rewrite fold_left_app. Qed.

Lemma caused_snoc (evs : list event) (ev : event) (t : Z) :
  Spec.caused startTime duration evs t ->
  Spec.caused startTime duration (evs ++ [ev]) t.
Proof.
  intros [[Hf Hd] | [Ht [e [He Hle]]]]; [left | right].
  - split; [|assumption]. apply elem_of_app. now left.
  - split; [apply elem_of_app; now left|].
    exists e. split; [apply elem_of_app; now left | assumption].
Qed.

Lemma run_inv (evs : list event) :
  Spec.recording_inv startTime duration evs (after evs).
Proof.
  induction evs as [|ev evs IH] using rev_ind.
  - split3.
    + intros t Ht. inversion Ht.
    + intros due Hdue. inversion Hdue.
    + discriminate.
  - rewrite run_snoc. destruct IH as (Hstop & Htimers & Hreq).
    assert (Hstop' : forall t, t ∈ stop_calls (after evs) ->
              Spec.caused startTime duration (evs ++ [ev]) t)
      by (intros t Ht; apply caused_snoc; now apply Hstop).
    assert (Htimers' : forall due, due ∈ timers (after evs) ->
              exists e, AudioEnded e ∈ evs ++ [ev] /\ due = (e + 500)%Z).
    { intros due Hdue. destruct (Htimers due Hdue) as [e [He ->]].
      exists e. split; [apply elem_of_app; now left | reflexivity]. }
    destruct ev as [now | now | now]; simpl.
    + destruct (frame_requested (after evs)) eqn:Hfr;
        [|split3; try assumption; now rewrite Hfr].
      destruct (snd (frame now)) eqn:Hnext.
      * split3; try assumption. now rewrite Hfr.
      * apply drawFrame_stops in Hnext. split3; simpl.
        -- intros t Ht. apply elem_of_app in Ht as [Ht | Ht];
             [now apply Hstop'|].
           apply list_elem_of_singleton in Ht as ->. left.
           split; [|assumption]. apply elem_of_app. right.
           now apply list_elem_of_singleton.
        -- assumption.
        -- intros _ H. now apply app_eq_nil in H as [_ H].
    + split3; simpl; try assumption.
      intros due Hdue. apply elem_of_app in Hdue as [Hdue | Hdue];
        [now apply Htimers'|].
      apply list_elem_of_singleton in Hdue as ->. exists now.
      split; [|reflexivity]. apply elem_of_app. right.
      now apply list_elem_of_singleton.
    + destruct (timers (after evs)) as [|due rest] eqn:Ht.
      { split3; [exact Hstop' | | exact Hreq].
        intros due Hdue. rewrite Ht in Hdue. inversion Hdue. }
      destruct (due <=? now)%Z eqn:Hdue.
      2: { split3; [exact Hstop' | | exact Hreq].
           intros due' Hin. rewrite Ht in Hin. now apply Htimers'. }
      apply Z.leb_le in Hdue. split3; simpl.
      * intros t Hin. apply elem_of_app in Hin as [Hin | Hin];
          [now apply Hstop'|].
        apply list_elem_of_singleton in Hin as ->. right.
        split; [apply elem_of_app; right; now apply list_elem_of_singleton|].
        destruct (Htimers' due) as [e [He ->]]; [left|].
        exists e. split; assumption.
      * intros due' Hin. apply Htimers'. now right.
      * intros _ H. now apply app_eq_nil in H as [_ H].
Qed.

(** C5, as amended: a frame asks for the next frame exactly while
    the elapsed time is below [duration + 1] seconds and otherwise
    calls [recorder.stop()]; so on this path the recorder is stopped
    by the first frame that runs [duration + 1] seconds or more after
    the start, not before.  The [ended] event of the audio sets a
    timer of 500 ms whose callback calls [recorder.stop()].
    Whatever the browser does, every call of [recorder.stop()] comes
    from one of the two, and each of the two makes its call as soon
    as its event is handled. *)
Theorem recording_stop_causes (evs : list event) :
  (forall now,
     (snd (frame now) = RequestAnimationFrame
      <-> elapsed startTime now < duration + 1)
     /\ (snd (frame now) = StopRecording
         <-> duration + 1 <= elapsed startTime now))
  /\ (forall t, t ∈ stop_calls (after evs) ->
        Spec.caused startTime duration evs t)
  /\ (forall now, duration + 1 <= elapsed startTime now ->
        stop_calls (after (evs ++ [Frame now])) <> [])
  /\ (forall now, elapsed startTime now < duration + 1 ->
        after (evs ++ [Frame now]) = after evs)
  /\ (forall e t, timers (after evs) = [] -> (e + 500 <= t)%Z ->
        t ∈ stop_calls (after (evs ++ [AudioEnded e; TimerFired t]))).
Proof.
  split; [|split; [|split; [|split]]].
  - intros now. split; [apply drawFrame_continues | apply drawFrame_stops].
  - apply run_inv.
  - intros now Hnow. rewrite run_snoc. simpl.
    destruct (run_inv evs) as (_ & _ & Hreq).
    destruct (frame_requested (after evs)) eqn:Hfr; [|now apply Hreq].
    apply drawFrame_stops in Hnow. rewrite Hnow. simpl.
    intros H. now apply app_eq_nil in H as [_ H].
  - intros now Hnow. rewrite run_snoc. simpl.
    apply drawFrame_continues in Hnow. rewrite Hnow.
    now destruct (frame_requested (after evs)).
  - intros e t Ht Hle.
    change (evs ++ [AudioEnded e; TimerFired t])
      with (evs ++ [AudioEnded e] ++ [TimerFired t]).
    rewrite app_assoc, !run_snoc. simpl. rewrite Ht. simpl.
    apply Z.leb_le in Hle. rewrite Hle. simpl.
    apply elem_of_app. right. now apply list_elem_of_singleton.
Qed.

End Recording.

End Frames.


(** ** The still-image export *)

Section StillImage.

Import Canvas Dashboard.
Local Open Scope Q_scope.

Variable measureText : string -> string -> JS.number.
Variable getPropertyValue : string -> string.
Variable random : nat -> JS.number.
Variable sin : JS.number -> JS.number.
Variable PI : JS.number.
Variable format : string -> string -> string.
Variable toDataURL : list Canvas.op -> string -> JS.number -> string.

Local Notation "'export'" :=
  (downloadMessage measureText getPropertyValue random sin PI format
     toDataURL).
Local Notation "'export_ops'" :=
  (downloadMessage_ops measureText getPropertyValue random sin PI format).

Lemma contains_here (run rest : list op) : Spec.contains (run ++ rest) run.
Proof. exists [], rest. reflexivity. Qed.

Lemma contains_later (pre ops run : list op) :
  Spec.contains ops run -> Spec.contains (pre ++ ops) run.
Proof.
  intros [before [after ->]]. exists (pre ++ before), after.
  now rewrite <- app_assoc.
Qed.

Lemma drawn_export (ops : list op) (rest : list effect) :
  drawn rest = [] -> drawn (map Draw ops ++ rest) = ops.
Proof.
  intros Hrest. unfold drawn in *. rewrite flat_map_app, Hrest, app_nil_r.
  induction ops as [|o ops IH]; simpl; [reflexivity | now rewrite IH].
Qed.

Lemma trimStart_white_space (w s : string) :
  w ∈ JS.white_space -> JS.trimStart (w +:+ s) = JS.trimStart s.
Proof.
  intros H. apply list_elem_of_In in H. simpl in H.
  repeat (destruct H as [<- | H]; [reflexivity|]). contradiction.
Qed.

Lemma trimStart_white (ws : list string) :
  Forall (fun w => w ∈ JS.white_space) ws ->
  JS.trimStart (fold_right String.append "" ws) = "".
Proof.
  induction 1 as [|w ws Hw _ IH]; [reflexivity|].
  simpl. now rewrite trimStart_white_space.
Qed.

Lemma wrapText_draws_text (font text : string)
    (x y maxWidth lineHeight : JS.number) :
  Forall (fun o => exists t yi, o = FillText t x yi)
    (fst (wrapText measureText font text x y maxWidth lineHeight)).
Proof.
  unfold wrapText.
  pose proof (wrapText_loop_ops measureText font x maxWidth lineHeight
                (JS.split_space text) 0 "" y) as H.
  destruct (wrapText_loop _ _ _ _ _ _ _ _ _) as [ops [line drawY]].
  simpl in *. apply Forall_app. split; [exact H|].
  constructor; [eauto | constructor].
Qed.

(** C7: the content text of the image export is the placeholder
    when the text field is [null], empty or white space only, and the
    message text when its trimmed text is not empty (for an audio
    message as for any other).  The content text is what the export
    writes as the body of the card: its run has, in one piece, the
    calls of [wrapText] for the content text, which are calls that
    write text at the left edge of the body and whose texts, put end to
    end, are the content text followed by a space. *)
Theorem contentText_placeholder (message : Message) :
  Spec.contains (drawn (export true message))
    (fst (wrapText measureText ("400 36px " +:+ sans) (contentText message)
            (72 + 48) (72 + 130 + 44 + 32) (1080 - 72 * 2 - 96) 48))
  /\ Forall (fun o => exists t yi, o = FillText t (72 + 48) yi)
       (fst (wrapText measureText ("400 36px " +:+ sans)
               (contentText message)
               (72 + 48) (72 + 130 + 44 + 32) (1080 - 72 * 2 - 96) 48))
  /\ Spec.glue
       (texts (fst (wrapText measureText ("400 36px " +:+ sans)
                      (contentText message)
                      (72 + 48) (72 + 130 + 44 + 32) (1080 - 72 * 2 - 96)
                      48)))
     = contentText message +:+ " "
  /\ (Spec.blank (message_text message) ->
      contentText message = placeholder)
  /\ (forall s, message_text message = Some s -> JS.trim s <> "" ->
      contentText message = s).
Proof.
  split; [|split; [|split; [|split]]].
  - unfold downloadMessage. rewrite drawn_export by reflexivity.
    unfold downloadMessage_ops.
    destruct (wrapText _ _ _ _ _ _ _) as [textOps endY]. simpl fst.
    repeat first [apply contains_here | apply contains_later].
  - apply wrapText_draws_text.
  - apply wrapText_glue.
  - unfold contentText, Spec.blank. destruct (message_text message) as [s|];
      [|reflexivity].
    intros [ws [Hws ->]]. unfold JS.trim. rewrite (trimStart_white ws Hws).
    simpl. now rewrite andb_false_r.
  - intros s Hs Hne. unfold contentText. rewrite Hs.
    destruct s as [|c s]; [now elim Hne|].
    destruct (JS.trim (String c s)); [now elim Hne | reflexivity].
Qed.

(** C8: without a 2D context [downloadMessage] returns at once and
    leaves nothing behind: no call on a context, no encoding, no
    download.  (With a context it draws, encodes the surface as JPEG
    once and hands one file to the browser.) *)
Theorem downloadMessage_without_context (message : Message) :
  export false message = []
  /\ exists ops,
       ops <> []
       /\ export true message
          = map Draw ops
            ++ [ Encode "image/jpeg" 0.92;
                 Download (toDataURL ops "image/jpeg" 0.92)
                   ("message-" +:+ format (created_at message) "yyyy-MM-dd"
                    +:+ ".jpg") ].
Proof.
  split; [reflexivity|].
  exists (export_ops message). split; [|reflexivity].
  unfold downloadMessage_ops.
  destruct (wrapText _ _ _ _ _ _ _) as [textOps endY]. discriminate.
Qed.

End StillImage.

Lemma contentText_placeholder_witness :
  (Spec.blank (Dashboard.message_text Spec.voice_note)
   /\ Dashboard.contentText Spec.voice_note = Dashboard.placeholder)
  /\ (Spec.blank (Dashboard.message_text Spec.blank_note)
      /\ Dashboard.contentText Spec.blank_note = Dashboard.placeholder)
  /\ (JS.trim "halo apa kabar" <> ""
      /\ Dashboard.contentText Spec.note = "halo apa kabar").
Proof.
  pose proof (contentText_placeholder Spec.ten_per_char Spec.flat_style
                Spec.flat_random Spec.flat_sin 3%Q Spec.flat_format
                Spec.flat_encode) as H.
  assert (Hb : Spec.blank (Dashboard.message_text Spec.voice_note))
    by exact I.
  assert (Hi : Spec.blank (Dashboard.message_text Spec.blank_note)).
  { exists [JS.bytes [227; 128; 128]%N; " "]. split; [|reflexivity].
    repeat constructor; apply list_elem_of_In; simpl; tauto. }
  assert (Hn : JS.trim "halo apa kabar" <> "") by discriminate.
  split; [|split]; split.
  - exact Hb.
  - exact (proj1 (proj2 (proj2 (proj2 (H Spec.voice_note)))) Hb).
  - exact Hi.
  - exact (proj1 (proj2 (proj2 (proj2 (H Spec.blank_note)))) Hi).
  - exact Hn.
  - exact (proj2 (proj2 (proj2 (proj2 (H Spec.note)))) "halo apa kabar"
             eq_refl Hn).
Defined.

(** ** Marking a message as read *)

Section MarkAsRead.

Import Dashboard.

Lemma with_is_read_true_frame (msg : Message) :
  id (with_is_read_true msg) = id msg
  /\ message_text (with_is_read_true msg) = message_text msg
  /\ audio_url (with_is_read_true msg) = audio_url msg
  /\ message_type (with_is_read_true msg) = message_type msg
  /\ created_at (with_is_read_true msg) = created_at msg
  /\ is_read (with_is_read_true msg) = true.
Proof. repeat split. Qed.

Lemma markAsRead_lookup (messageId : string) (prev : list Message) :
  forall i msg, prev !! i = Some msg ->
  markAsRead None messageId prev !! i
  = Some (if String.eqb (id msg) messageId
          then with_is_read_true msg else msg).
Proof.
  induction prev as [|m prev IH]; intros i msg Hi; [discriminate|].
  destruct i as [|i]; simpl in *.
  - now injection Hi as ->.
  - now apply IH.
Qed.

(** C10: [markAsRead] keeps the list of messages as it is, but for
    the flag [is_read] of the messages with the given id, which it
    sets to [true] once the store has accepted the update: the length
    and the order of the list, every message with another id, and the
    id, text, audio reference, type and timestamp of every message
    are unchanged.  When the store refuses the update nothing
    changes. *)
Theorem markAsRead_frame (error : option string) (messageId : string)
    (prev : list Message) (i : nat) (msg : Message) :
  prev !! i = Some msg ->
  length (markAsRead error messageId prev) = length prev
  /\ exists msg',
       markAsRead error messageId prev !! i = Some msg'
       /\ id msg' = id msg
       /\ message_text msg' = message_text msg
       /\ audio_url msg' = audio_url msg
       /\ message_type msg' = message_type msg
       /\ created_at msg' = created_at msg
       /\ (id msg <> messageId -> msg' = msg)
       /\ (is_read msg' <> is_read msg -> is_read msg' = true)
       /\ (error = None -> id msg = messageId -> is_read msg' = true)
       /\ (error <> None -> msg' = msg).
Proof.
  intros Hi. destruct error as [e|].
  - split; [reflexivity|]. exists msg. simpl.
    repeat split; try assumption; try reflexivity; try discriminate.
    intros H. now elim H.
  - split; [apply length_map|].
    exists (if String.eqb (id msg) messageId
            then with_is_read_true msg else msg).
    split; [now apply markAsRead_lookup|].
    destruct (String.eqb_spec (id msg) messageId) as [He|Hne].
    + repeat split; try reflexivity; try congruence.
    + repeat split; try reflexivity; try congruence.
Qed.

End MarkAsRead.

Lemma markAsRead_frame_witness :
  [Spec.voice_note; Spec.note] !! 1%nat = Some Spec.note
  /\ length (Dashboard.markAsRead None "m2" [Spec.voice_note; Spec.note])
     = length [Spec.voice_note; Spec.note]
  /\ exists msg',
       Dashboard.markAsRead None "m2" [Spec.voice_note; Spec.note] !! 1%nat
       = Some msg'
       /\ Dashboard.message_text msg' = Dashboard.message_text Spec.note.
Proof.
  assert (H : [Spec.voice_note; Spec.note] !! 1%nat = Some Spec.note)
    by reflexivity.
  split; [exact H|].
  destruct (markAsRead_frame None "m2" [Spec.voice_note; Spec.note] 1
              Spec.note H) as [Hlen [msg' [Hl [_ [Ht _]]]]].
  split; [exact Hlen|]. exists msg'. split; [exact Hl | exact Ht].
Defined.

(** ** The send view *)

Section Send.

Import SendMessage.

Lemma ext_of_extension (mime : string) :
  Object_prototype !! mime = None -> ext_of mime = Spec.extension mime.
Proof.
  intros Hown. unfold ext_of. rewrite Hown. clear Hown.
  unfold extMap, Spec.extension. simpl list_to_map.
  repeat match goal with
  | |- context [String.eqb mime ?k] =>
      destruct (String.eqb_spec mime k) as [->|];
        [reflexivity | rewrite lookup_insert_ne by congruence]
  end.
  now rewrite lookup_empty.
Qed.

Lemma mime_of_own (audioBlob : Blob) :
  Object_prototype !! type audioBlob = None ->
  Object_prototype !! mime_of audioBlob = None.
Proof.
  intros H. unfold mime_of, JS.or_else.
  destruct (JS.truthy (type audioBlob)); [exact H | reflexivity].
Qed.

Lemma elem_of_one {A} (x y : A) : x ∈ [y] -> x = y.
Proof. intros H. now apply list_elem_of_singleton in H. Qed.

(** For a blob whose type is not the name of a property objects
    inherit: the blob is uploaded to the bucket [audio-messages] under
    the name [<epoch-millis>-<recipientId>.<ext>], and the row written
    for it refers to it as
    [audio-messages/<epoch-millis>-<recipientId>.<ext>]; [<ext>] is
    read off the fixed table from the MIME type of the blob
    ([audio/webm] when the blob has none), [webm] when the table has
    no entry, and [m4a] for [audio/mp4]. *)
Lemma stored_audio_path (profile : Profile) (audioBlob : Blob) (now : Z)
    (uploadError error : option string) :
  Object_prototype !! type audioBlob = None ->
  let mime := if JS.truthy (type audioBlob) then type audioBlob
              else "audio/webm" in
  let name := JS.string_of_Z now +:+ "-" +:+ id profile +:+ "."
              +:+ Spec.extension mime in
  let es := sendAudioMessage (Some profile) (Some audioBlob) now
              uploadError error in
  uploaded es = [("audio-messages", name)]
  /\ (forall r, r ∈ inserted es ->
        audio_url r = Some ("audio-messages/" +:+ name))
  /\ (uploadError = None -> exists r, inserted es = [r])
  /\ (type audioBlob = "audio/mp4" -> Spec.extension mime = "m4a")
  /\ ext_of (mime_of audioBlob) = Spec.extension mime.
Proof.
  intros Hown. apply mime_of_own in Hown.
  cbv zeta. unfold sendAudioMessage, fileName_of.
  rewrite (ext_of_extension _ Hown). unfold mime_of, JS.or_else.
  split; [|split; [|split; [|split]]].
  - destruct uploadError, error; reflexivity.
  - intros r Hr.
    destruct uploadError, error; simpl in Hr;
      try (now inversion Hr); apply elem_of_one in Hr; now subst r.
  - intros ->. destruct error; eexists; reflexivity.
  - intros ->. reflexivity.
  - reflexivity.
Qed.


(** C9: a row the send view inserts is either of type [text], with
    the trimmed input, which is not empty, as its text and no audio
    reference, or of type [audio], with an audio reference and no
    text; its type is never [both], and exactly one of text and audio
    reference is set. *)
Theorem inserted_text_xor_audio (r : row) :
  (forall profile messageText error,
     r ∈ inserted (sendTextMessage profile messageText error) ->
     message_type r = "text"
     /\ message_text r = Some (JS.trim messageText)
     /\ JS.trim messageText <> ""
     /\ audio_url r = None)
  /\ (forall profile audioBlob now uploadError error,
       r ∈ inserted (sendAudioMessage profile audioBlob now uploadError
                       error) ->
       message_type r = "audio"
       /\ (exists fileName,
             audio_url r = Some ("audio-messages/" +:+ fileName))
       /\ message_text r = None)
  /\ (forall profile messageText audioBlob now uploadError error,
       r ∈ inserted (sendTextMessage profile messageText error)
           ++ inserted (sendAudioMessage profile audioBlob now uploadError
                          error) ->
       message_type r <> "both"
       /\ (is_Some (message_text r) <-> audio_url r = None)).
Proof.
  assert (Ht : forall profile messageText error,
     r ∈ inserted (sendTextMessage profile messageText error) ->
     message_type r = "text"
     /\ message_text r = Some (JS.trim messageText)
     /\ JS.trim messageText <> ""
     /\ audio_url r = None).
  { intros profile messageText error Hr. unfold sendTextMessage in Hr.
    destruct profile as [profile|]; [|now inversion Hr].
    destruct (JS.trim messageText) as [|c s] eqn:E;
      [now inversion Hr|].
    destruct error; simpl in Hr; apply elem_of_one in Hr; subst r;
      repeat split; discriminate. }
  assert (Ha : forall profile audioBlob now uploadError error,
       r ∈ inserted (sendAudioMessage profile audioBlob now uploadError
                       error) ->
       message_type r = "audio"
       /\ (exists fileName,
             audio_url r = Some ("audio-messages/" +:+ fileName))
       /\ message_text r = None).
  { intros profile audioBlob now uploadError error Hr.
    unfold sendAudioMessage in Hr.
    destruct profile as [profile|]; [|now inversion Hr].
    destruct audioBlob as [audioBlob|]; [|now inversion Hr].
    destruct uploadError, error; simpl in Hr;
      try (now inversion Hr); apply elem_of_one in Hr; subst r;
      (split; [reflexivity|]; split; [eexists; reflexivity | reflexivity]). }
  split; [exact Ht|]. split; [exact Ha|].
  intros profile messageText audioBlob now uploadError error Hr.
  apply elem_of_app in Hr as [Hr | Hr].
  - destruct (Ht _ _ _ Hr) as (-> & -> & _ & ->).
    split; [discriminate|]. split; [reflexivity | intros _; now eexists].
  - destruct (Ha _ _ _ _ _ Hr) as (-> & [f ->] & ->).
    split; [discriminate|]. split; [intros [? ?]; discriminate | discriminate].
Qed.

End Send.

Lemma stored_audio_path_witness :
  SendMessage.type Spec.mp4_blob = "audio/mp4"
  /\ SendMessage.uploaded
       (SendMessage.sendAudioMessage (Some Spec.recipient) (Some Spec.mp4_blob)
          1700000000000 None None)
     = [("audio-messages", "1700000000000-u1.m4a")]
  /\ (forall r,
        r ∈ SendMessage.inserted
              (SendMessage.sendAudioMessage (Some Spec.recipient)
                 (Some Spec.mp4_blob) 1700000000000 None None) ->
        SendMessage.audio_url r
        = Some "audio-messages/1700000000000-u1.m4a").
Proof.
  destruct (stored_audio_path Spec.recipient Spec.mp4_blob 1700000000000
              None None eq_refl) as (Hu & Hi & _ & _ & _).
  split; [reflexivity|]. split; [exact Hu | exact Hi].
Defined.

Lemma inserted_text_xor_audio_witness :
  Spec.hi_row
    ∈ SendMessage.inserted
        (SendMessage.sendTextMessage (Some Spec.recipient) "  hi " None)
  /\ SendMessage.message_type Spec.hi_row = "text"
  /\ SendMessage.message_text Spec.hi_row = Some (JS.trim "  hi ")
  /\ JS.trim "  hi " <> ""
  /\ SendMessage.audio_url Spec.hi_row = None.
Proof.
  assert (H : Spec.hi_row
                ∈ SendMessage.inserted
                    (SendMessage.sendTextMessage (Some Spec.recipient)
                       "  hi " None)) by (vm_compute; left).
  split; [exact H|].
  exact (proj1 (inserted_text_xor_audio Spec.hi_row)
           (Some Spec.recipient) "  hi " None H).
Defined.

(** C5: with a frame every 17 ms, an audio of one second and no
    [ended] event (playback did not start), [recorder.stop()] is called
    once, 2006 ms after the start, later than [duration + 1] seconds. *)
Lemma recording_stops_after_margin :
  Dashboard.stop_calls
    (Dashboard.run Spec.ten_per_char Spec.flat_sin 3%Q Spec.flat_number
       Spec.voice_note 0 1%Q (Spec.frames_every 17 200))
  = [2006%Z]
  /\ (1 + 1 < Dashboard.elapsed 0 2006)%Q
  /\ ~ (forall t,
          t ∈ Dashboard.stop_calls
                (Dashboard.run Spec.ten_per_char Spec.flat_sin 3%Q
                   Spec.flat_number Spec.voice_note 0 1%Q
                   (Spec.frames_every 17 200)) ->
          (Dashboard.elapsed 0 t <= 1 + 1)%Q).
Proof.
  assert (H : Dashboard.stop_calls
                (Dashboard.run Spec.ten_per_char Spec.flat_sin 3%Q
                   Spec.flat_number Spec.voice_note 0 1%Q
                   (Spec.frames_every 17 200))
              = [2006%Z]) by (vm_compute; reflexivity).
  split; [exact H|]. split; [reflexivity|].
  intros Hall. rewrite H in Hall.
  specialize (Hall 2006%Z ltac:(left)). revert Hall. vm_compute.
  intros Hall. now apply Hall.
Qed.

Lemma recording_stop_causes_witness :
  2006%Z
    ∈ Dashboard.stop_calls
        (Dashboard.run Spec.ten_per_char Spec.flat_sin 3%Q Spec.flat_number
           Spec.voice_note 0 1%Q (Spec.frames_every 17 200))
  /\ Spec.caused 0 1%Q (Spec.frames_every 17 200) 2006%Z.
Proof.
  assert (H : 2006%Z
                ∈ Dashboard.stop_calls
                    (Dashboard.run Spec.ten_per_char Spec.flat_sin 3%Q
                       Spec.flat_number Spec.voice_note 0 1%Q
                       (Spec.frames_every 17 200)))
    by (vm_compute; left).
  split; [exact H|].
  exact (proj1 (proj2 (recording_stop_causes Spec.ten_per_char Spec.flat_sin
                         3%Q Spec.flat_number Spec.voice_note 0 1%Q
                         (Spec.frames_every 17 200))) 2006%Z H).
Defined.

(** * Further properties of the code *)

(** ** Where [wrapText] draws, and when it breaks *)

Section WrapGeometry.

Import Canvas Dashboard.
Local Open Scope Q_scope.

Variable measureText : string -> string -> JS.number.
Variables (font : string) (x maxWidth lineHeight : JS.number).

Local Notation "'wloop'" :=
  (wrapText_loop measureText font x maxWidth lineHeight).
Local Notation "'glines'" := (Spec.greedy_lines (measureText font) maxWidth).

Lemma of_nat_S (n : nat) : JS.of_nat (S n) == JS.of_nat n + 1.
Proof.
  unfold JS.of_nat. rewrite Nat2Z.inj_succ, <- Z.add_1_r.
  now rewrite inject_Z_plus.
Qed.

Lemma wrapText_loop_positions (words : list string) :
  forall n line drawY,
  (forall i o, fst (wloop words n line drawY) !! i = Some o ->
     exists t yi, o = FillText t x yi
                  /\ yi == drawY + JS.of_nat i * lineHeight)
  /\ snd (snd (wloop words n line drawY))
     == drawY + JS.of_nat (length (fst (wloop words n line drawY)))
                * lineHeight.
Proof.
  induction words as [|w rest IH]; intros n line drawY; simpl.
  - split; [intros i o H; destruct i; discriminate|].
    unfold JS.of_nat. simpl. symmetry. ring.
  - destruct (JS.gt _ maxWidth && (0 <? n)%nat); [|apply IH].
    specialize (IH (S n) (w +:+ " ") (drawY + lineHeight)).
    destruct (wloop rest (S n) (w +:+ " ") (drawY + lineHeight))
      as [ops fin]. simpl in *. destruct IH as [IHpos IHend]. split.
    + intros [|i] o Hi; simpl in Hi.
      * injection Hi as <-. exists line, drawY. split; [reflexivity|].
        unfold JS.of_nat. simpl. symmetry. ring.
      * destruct (IHpos i o Hi) as [t [yi [-> Hy]]].
        exists t, yi. split; [reflexivity|].
        rewrite Hy, of_nat_S. ring.
    + rewrite IHend, of_nat_S. ring.
Qed.

Lemma wrapText_loop_count (words : list string) :
  forall n line drawY,
  (length (fst (wloop words n line drawY)) <= length words)%nat.
Proof.
  induction words as [|w rest IH]; intros n line drawY; simpl; [lia|].
  destruct (JS.gt _ maxWidth && (0 <? n)%nat).
  - specialize (IH (S n) (w +:+ " ") (drawY + lineHeight)).
    destruct (wloop rest (S n) (w +:+ " ") (drawY + lineHeight))
      as [ops fin]. simpl in *. lia.
  - specialize (IH (S n) (line +:+ w +:+ " ") drawY). lia.
Qed.

Lemma wrapText_loop_first (words : list string) (line : string)
    (drawY : JS.number) :
  fst (wloop words 0 line drawY) = []
  \/ (length (fst (wloop words 0 line drawY)) < length words)%nat.
Proof.
  destruct words as [|w rest]; simpl; [now left|].
  rewrite andb_false_r. right.
  pose proof (wrapText_loop_count rest 1 (line +:+ w +:+ " ") drawY). lia.
Qed.

(** X1: [wrapText] draws only texts, all at abscissa [x], the [i]-th
    at ordinate [y + i * lineHeight]; it draws at least one line and at
    most one line a word, and returns the ordinate below the last
    line, [y] plus [lineHeight] times the number of lines drawn. *)
Theorem wrapText_positions (text : string) (y : JS.number) :
  let r := wrapText measureText font text x y maxWidth lineHeight in
  (1 <= length (fst r) <= length (JS.split_space text))%nat
  /\ (forall i o, fst r !! i = Some o ->
        exists t yi, o = FillText t x yi
                     /\ yi == y + JS.of_nat i * lineHeight)
  /\ snd r == y + JS.of_nat (length (fst r)) * lineHeight.
Proof.
  cbv zeta. unfold wrapText.
  pose proof (wrapText_loop_positions (JS.split_space text) 0 "" y)
    as [Hpos Hend].
  pose proof (wrapText_loop_first (JS.split_space text) "" y) as Hcount.
  destruct (split_space_cons text) as [w0 [rest0 Hs]].
  destruct (wloop (JS.split_space text) 0 "" y) as [ops [line drawY]].
  simpl in *. rewrite length_app. simpl. split; [|split].
  - rewrite Hs in *. simpl in *.
    destruct Hcount as [-> | H]; simpl; lia.
  - intros i o Hi. destruct (decide (i < length ops)%nat) as [Hlt|Hge].
    + rewrite lookup_app_l in Hi by assumption. now apply Hpos.
    + rewrite lookup_app_r in Hi by lia.
      destruct (i - length ops)%nat as [|k] eqn:E; [|destruct k; discriminate].
      injection Hi as <-. exists line, drawY. split; [reflexivity|].
      replace i with (length ops) by lia. exact Hend.
  - rewrite Hend. replace (length ops + 1)%nat with (S (length ops)) by lia.
    rewrite of_nat_S. ring.
Qed.

Lemma greedy_lines_head (words : list string) :
  forall line, exists s tl, glines words line = (line +:+ s) :: tl.
Proof.
  induction words as [|w rest IH]; intros line; simpl.
  - exists "", []. now rewrite append_empty_r.
  - destruct (JS.gt _ maxWidth).
    + exists "". eexists. now rewrite append_empty_r.
    + destruct (IH (line +:+ w +:+ " ")) as [s [tl ->]].
      exists (w +:+ " " +:+ s), tl. now rewrite !append_assoc.
Qed.

Lemma greedy_lines_breaks (words : list string) :
  forall line i a b,
  glines words line !! i = Some a ->
  glines words line !! S i = Some b ->
  exists w s, w ∈ words /\ b = w +:+ " " +:+ s
              /\ maxWidth < measureText font (a +:+ w +:+ " ").
Proof.
  induction words as [|w rest IH]; intros line i a b Ha Hb; simpl in *.
  - destruct i; discriminate.
  - destruct (JS.gt _ maxWidth) eqn:E.
    + destruct i as [|i]; simpl in *.
      * injection Ha as <-.
        destruct (greedy_lines_head rest (w +:+ " ")) as [s [tl Hh]].
        rewrite Hh in Hb. simpl in Hb. injection Hb as <-.
        exists w, s. split; [left|]. split; [now rewrite append_assoc|].
        now apply gt_true.
      * destruct (IH _ _ _ _ Ha Hb) as [w' [s [Hw' H]]].
        exists w', s. split; [now right | exact H].
    + destruct (IH _ _ _ _ Ha Hb) as [w' [s [Hw' H]]].
      exists w', s. split; [now right | exact H].
Qed.

(** X2: [wrapText] breaks a line only when it has to: whenever a line
    is followed by another, the next line starts with a word of the
    text that, added to the line, was measured wider than
    [maxWidth]. *)
Theorem wrapText_breaks_only_when_needed (text : string) (y : JS.number)
    (i : nat) (a b : string) :
  texts (fst (wrapText measureText font text x y maxWidth lineHeight)) !! i
  = Some a ->
  texts (fst (wrapText measureText font text x y maxWidth lineHeight)) !! S i
  = Some b ->
  exists w s, w ∈ JS.split_space text /\ b = w +:+ " " +:+ s
              /\ maxWidth < measureText font (a +:+ w +:+ " ").
Proof.
  destruct (wrapText_lines measureText font x maxWidth lineHeight text y)
    as [w0 [rest [Hs ->]]].
  intros Ha Hb. destruct (greedy_lines_breaks _ _ _ _ _ Ha Hb)
    as [w [s [Hw H]]].
  exists w, s. split; [rewrite Hs; now right | exact H].
Qed.

End WrapGeometry.

Section WrapGeometryExamples.

Local Open Scope Q_scope.

Lemma wrapText_positions_witness :
  fst (Dashboard.wrapText Spec.ten_per_char "400 36px Inter" "halo apa kabar"
         120 278 100 48) !! 1%nat
  = Some (Canvas.FillText "kabar " 120 (278 + 48))
  /\ exists t yi,
       Canvas.FillText "kabar " 120 (278 + 48) = Canvas.FillText t 120 yi
       /\ yi == 278 + JS.of_nat 1 * 48.
Proof.
  assert (H : fst (Dashboard.wrapText Spec.ten_per_char "400 36px Inter"
                     "halo apa kabar" 120 278 100 48) !! 1%nat
              = Some (Canvas.FillText "kabar " 120 (278 + 48)))
    by reflexivity.
  split; [exact H|].
  exact (proj1 (proj2 (wrapText_positions Spec.ten_per_char "400 36px Inter"
                         120 100 48 "halo apa kabar" 278)) 1%nat _ H).
Defined.

Lemma wrapText_breaks_only_when_needed_witness :
  Canvas.texts
    (fst (Dashboard.wrapText Spec.ten_per_char "400 36px Inter"
            "halo apa kabar" 120 278 100 48)) !! 0%nat = Some "halo apa "
  /\ Canvas.texts
       (fst (Dashboard.wrapText Spec.ten_per_char "400 36px Inter"
               "halo apa kabar" 120 278 100 48)) !! 1%nat = Some "kabar "
  /\ exists w s,
       w ∈ JS.split_space "halo apa kabar" /\ "kabar " = w +:+ " " +:+ s
       /\ 100 < Spec.ten_per_char "400 36px Inter" ("halo apa " +:+ w +:+ " ").
Proof.
  split; [reflexivity|]. split; [reflexivity|].
  exact (wrapText_breaks_only_when_needed Spec.ten_per_char "400 36px Inter"
           120 100 48 "halo apa kabar" 278 0%nat "halo apa " "kabar "
           eq_refl eq_refl).
Defined.

End WrapGeometryExamples.

(** ** What the exports write on the card *)

Section CardTexts.

Import Canvas Dashboard.
Local Open Scope Q_scope.

Variable measureText : string -> string -> JS.number.
Variable getPropertyValue : string -> string.
Variable random : nat -> JS.number.
Variable sin : JS.number -> JS.number.
Variable PI : JS.number.
Variable format : string -> string -> string.
Variable number_to_string : JS.number -> string.

Lemma texts_app (a b : list op) : texts (a ++ b) = texts a ++ texts b.
Proof.
  induction a as [|o a IH]; [reflexivity|].
  destruct o; simpl; now rewrite IH.
Qed.

Lemma wrapText_only_texts (font text : string)
    (x y maxWidth lineHeight : JS.number) :
  Forall (fun o => exists t yi, o = FillText t x yi)
    (fst (wrapText measureText font text x y maxWidth lineHeight)).
Proof.
  unfold wrapText.
  pose proof (wrapText_loop_ops measureText font x maxWidth lineHeight
                (JS.split_space text) 0 "" y) as H.
  destruct (wrapText_loop _ _ _ _ _ _ _ _ _) as [ops [line drawY]].
  simpl in *. apply Forall_app. split; [exact H|].
  constructor; [eauto | constructor].
Qed.

Lemma no_gradient_in_texts (x : JS.number) (ops : list op) :
  Forall (fun o => exists t yi, o = FillText t x yi) ops ->
  List.filter Spec.selects_gradient ops = [].
Proof.
  induction 1 as [|o ops [t [yi ->]] _ IH]; [reflexivity | exact IH].
Qed.

(** X3: the body of the card is never blank: whatever the message,
    the content text of the image export has a character that is not
    white space. *)
Theorem contentText_never_blank (message : Message) :
  JS.trim (contentText message) <> "" /\ contentText message <> "".
Proof.
  assert (H : JS.trim (contentText message) <> "").
  { unfold contentText. destruct (message_text message) as [s|];
      [|vm_compute; discriminate].
    destruct (JS.truthy s && (0 <? String.length (JS.trim s))%nat) eqn:E;
      [|vm_compute; discriminate].
    apply andb_true_iff in E as [_ E]. now destruct (JS.trim s). }
  split; [exact H|]. intros E. rewrite E in H. now apply H.
Qed.

(** X4: the image export writes, in this order, the title, the badge
    (the message type in upper case), the wrapped content text, the
    note glyph when the type is [audio], and the footer with the date;
    it draws the 48 gradient bars exactly when the type is [audio], and
    none for any other type. *)
Theorem downloadMessage_texts_and_bars (message : Message) :
  let ops := downloadMessage_ops measureText getPropertyValue random sin PI
               format message in
  let audio := String.eqb (message_type message) "audio" in
  texts ops
  = [ if audio then "Anonymous Audio Message" else "Anonymous Message";
      JS.toUpperCase (message_type message) ]
    ++ texts (fst (wrapText measureText ("400 36px " +:+ sans)
                     (contentText message)
                     (72 + 48) (72 + 130 + 44 + 32) (1080 - 72 * 2 - 96) 48))
    ++ (if audio then [note_glyph] else [])
    ++ [ "Diterima: " +:+ format (created_at message) "PPp" ]
  /\ length (List.filter Spec.selects_gradient ops)
     = if audio then 49%nat else 1%nat.
Proof.
  cbv zeta. unfold downloadMessage_ops.
  pose proof (wrapText_only_texts ("400 36px " +:+ sans) (contentText message)
                (72 + 48) (72 + 130 + 44 + 32) (1080 - 72 * 2 - 96) 48) as Ht.
  apply no_gradient_in_texts in Ht.
  destruct (wrapText _ _ _ _ _ _ _) as [textOps endY]. simpl fst in *.
  destruct (String.eqb (message_type message) "audio"); split.
  - rewrite !texts_app. reflexivity.
  - rewrite !List.filter_app, !length_app, Ht. reflexivity.
  - rewrite !texts_app. reflexivity.
  - rewrite !List.filter_app, !length_app, Ht. reflexivity.
Qed.

Lemma text_calls_app (a b : list op) :
  Spec.text_calls (a ++ b) = Spec.text_calls a ++ Spec.text_calls b.
Proof. apply List.filter_app. Qed.

Lemma text_calls_texts (x : JS.number) (ops : list op) :
  Forall (fun o => exists t yi, o = FillText t x yi) ops ->
  Spec.text_calls ops = ops.
Proof.
  induction 1 as [|o ops [t [yi ->]] _ IH]; [reflexivity|].
  unfold Spec.text_calls in *. simpl. now rewrite IH.
Qed.

(** X5: every frame of the video export, for a finite duration, first
    clears the whole surface, and its calls that write text are, in
    this order: the title and the badge [AUDIO] at their fixed places;
    the calls of [wrapText] for the message text (the text
    [Audio message received] when the message has no text or an empty
    one) under the font of 28 px, from the ordinate 342 on, 840 wide,
    with a line height of 35; and the label with the whole seconds
    elapsed and the whole seconds of the duration, 195 below the
    ordinate [wrapText] returns. *)
Theorem drawFrame_texts (message : Message) (startTime : Z)
    (duration : JS.number) (now : Z) :
  let ops := fst (drawFrame measureText sin PI number_to_string message
                    startTime duration now) in
  let body := wrapText measureText "28px Arial, sans-serif"
                (JS.or_else_null (message_text message)
                   "Audio message received")
                (72 + 48) (72 + 100 + 110 + 36 + 24) (1080 - 72 * 2 - 96)
                35 in
  head ops = Some (ClearRect 0 0 1080 1080)
  /\ exists yl,
       yl == snd body + 195
       /\ Spec.text_calls ops
          = [ FillText "Anonymous Audio Message" (72 + 48) (72 + 100 + 48);
              FillText "AUDIO" (72 + 48 + 16) (72 + 100 + 110 + 36 / 2) ]
            ++ fst body
            ++ [ FillText
                   (JS.string_of_Z (Qfloor (elapsed startTime now))
                    +:+ "s / " +:+ JS.string_of_Z (Qfloor duration) +:+ "s")
                   (72 + 48) yl ].
Proof.
  cbv zeta. unfold drawFrame, wrapText.
  rewrite drawFrame_wrap_wrapText_loop.
  pose proof (wrapText_loop_ops measureText "28px Arial, sans-serif"
                (72 + 48) (1080 - 72 * 2 - 96) 35
                (JS.split_space
                   (JS.or_else_null (message_text message)
                      "Audio message received"))
                0 "" (72 + 100 + 110 + 36 + 24)) as Ht.
  destruct (wrapText_loop _ _ _ _ _ _ _ _ _) as [textOps [line y]].
  cbv beta iota zeta delta [fst snd] in *.
  split; [reflexivity|].
  exists (y + 80 + 80 + 40 + 30). split; [ring|].
  rewrite !text_calls_app, (text_calls_texts _ _ Ht), <- !app_assoc.
  reflexivity.
Qed.

End CardTexts.

(** ** Marking as read, repeatedly *)

Section ReadFlags.

Import Dashboard.

Lemma id_with_is_read_true (msg : Message) : id (with_is_read_true msg) = id msg.
Proof. reflexivity. Qed.

(** X6: marking the same message as read twice is marking it once:
    whatever the store answers to each of the two updates, the list is
    the one a single accepted update gives as soon as one of the two
    was accepted, and the list as it was when both were refused.
    Marking two messages as read gives the same list in either order,
    whatever the store answered to each update. *)
Theorem markAsRead_idempotent_commutes (e1 e2 : option string)
    (a b : string) (prev : list Message) :
  markAsRead e2 a (markAsRead e1 a prev)
  = match e1, e2 with
    | Some _, Some _ => prev
    | _, _ => markAsRead None a prev
    end
  /\ markAsRead e1 a (markAsRead e2 b prev)
     = markAsRead e2 b (markAsRead e1 a prev).
Proof.
  split.
  - destruct e1, e2; try reflexivity. unfold markAsRead.
    rewrite List.map_map. apply List.map_ext. intros m.
    destruct (String.eqb (id m) a) eqn:E.
    + now rewrite id_with_is_read_true, E.
    + now rewrite E.
  - destruct e1, e2; try reflexivity. unfold markAsRead.
    rewrite !List.map_map. apply List.map_ext. intros m.
    destruct (String.eqb (id m) a) eqn:Ea, (String.eqb (id m) b) eqn:Eb;
      rewrite ?id_with_is_read_true, ?Ea, ?Eb; reflexivity.
Qed.

(** X7: once the store has accepted the update, the unread messages
    are the former unread messages but those with the given id, in the
    same order, and no message with that id is unread; whatever the
    store answers, the number of unread messages does not grow and no
    read message becomes unread. *)
Theorem markAsRead_unread (error : option string) (messageId : string)
    (prev : list Message) :
  List.filter Spec.unread (markAsRead None messageId prev)
  = List.filter (fun m => Spec.unread m
                          && negb (String.eqb (id m) messageId)) prev
  /\ Forall (fun m => id m = messageId -> is_read m = true)
       (markAsRead None messageId prev)
  /\ (length (List.filter Spec.unread (markAsRead error messageId prev))
      <= length (List.filter Spec.unread prev))%nat
  /\ Forall2 (fun old new => is_read old = true -> is_read new = true)
       prev (markAsRead error messageId prev).
Proof.
  split; [|split; [|split]].
  - induction prev as [|m prev IH]; [reflexivity|]. simpl in *.
    destruct (String.eqb (id m) messageId) eqn:E; simpl.
    + rewrite andb_false_r. exact IH.
    + rewrite andb_true_r. destruct (Spec.unread m); now rewrite IH.
  - induction prev as [|m prev IH]; simpl; constructor; [|exact IH].
    destruct (String.eqb_spec (id m) messageId); [reflexivity | congruence].
  - destruct error; [reflexivity|].
    induction prev as [|m prev IH]; simpl in *; [lia|].
    destruct (String.eqb (id m) messageId); simpl;
      destruct (Spec.unread m); simpl; lia.
  - destruct error; simpl.
    + induction prev; constructor; auto.
    + induction prev as [|m prev IH]; simpl; constructor; [|exact IH].
      now destruct (String.eqb (id m) messageId).
Qed.

End ReadFlags.

(** ** The send view: flags, toasts and guards *)

Section SendView.

Import SendMessage.

Lemma extension_known (mime : string) :
  Spec.extension mime ∈ ["webm"; "mp3"; "m4a"; "wav"; "ogg"].
Proof.
  unfold Spec.extension.
  repeat match goal with
  | |- context [String.eqb mime ?k] => destruct (String.eqb mime k)
  end; set_solver.
Qed.

(** X8: a run of [sendTextMessage] or [sendAudioMessage] that gets
    past its guard sets the sending flag first and releases it last,
    also when the store or the storage fails, and shows exactly one
    toast: the success toast when every request succeeded, the error
    toast otherwise. *)
Theorem send_releases_flag_and_notifies :
  (forall profile messageText error,
     let es := sendTextMessage profile messageText error in
     es = []
     \/ (head es = Some (SetSending true)
         /\ last es = Some (SetSending false)
         /\ Spec.toasts es
            = [ match error with
                | None => ("Success", "Your anonymous message has been sent!")
                | Some _ => ("Error", "Failed to send message")
                end ]))
  /\ (forall profile audioBlob now uploadError error,
        let es := sendAudioMessage profile audioBlob now uploadError error in
        es = []
        \/ (head es = Some (SetSending true)
            /\ last es = Some (SetSending false)
            /\ Spec.toasts es
               = [ match uploadError, error with
                   | None, None =>
                       ("Success", "Your anonymous audio message has been sent!")
                   | _, _ => ("Error", "Failed to send audio message")
                   end ])).
Proof.
  split.
  - intros profile messageText error. cbv zeta. unfold sendTextMessage.
    destruct profile as [profile|]; [|now left].
    destruct (JS.truthy (JS.trim messageText)); [|now left].
    right. destruct error; repeat split.
  - intros profile audioBlob now uploadError error. cbv zeta.
    unfold sendAudioMessage.
    destruct profile as [profile|]; [|now left].
    destruct audioBlob as [audioBlob|]; [|now left].
    right. destruct uploadError, error; repeat split.
Qed.

(** X9: the draft is cleared only when the message went through: the
    text field is emptied exactly when a profile is loaded, the trimmed
    text is not empty and the insert succeeded, and the recorded audio
    is dropped exactly when the upload and the insert both succeeded;
    when the upload fails no row is inserted. *)
Theorem send_clears_draft_only_on_success :
  (forall profile messageText error,
     SetMessageText "" ∈ sendTextMessage profile messageText error
     <-> is_Some profile /\ JS.trim messageText <> "" /\ error = None)
  /\ (forall profile audioBlob now uploadError error,
        ClearAudio ∈ sendAudioMessage profile audioBlob now uploadError error
        <-> is_Some profile /\ is_Some audioBlob
            /\ uploadError = None /\ error = None)
  /\ (forall profile audioBlob now reason error,
        inserted (sendAudioMessage profile audioBlob now (Some reason) error)
        = []).
Proof.
  split; [|split].
  - intros profile messageText error. unfold sendTextMessage.
    destruct profile as [profile|].
    2: { split; [intros H; inversion H | intros ([? ?] & _); discriminate]. }
    destruct (JS.trim messageText) as [|c s] eqn:E; simpl.
    { split; [intros H; inversion H | intros (_ & H & _); now elim H]. }
    destruct error; simpl; rewrite !elem_of_cons, elem_of_nil.
    + split; [intros H | intros (_ & _ & H); discriminate].
      destruct H as [H | [H | [H | [H | [H | H]]]]];
        first [discriminate H | contradiction].
    + split; [intros _ | intros _; tauto].
      repeat split; [now eexists | discriminate].
  - intros profile audioBlob now uploadError error. unfold sendAudioMessage.
    destruct profile as [profile|].
    2: { split; [intros H; inversion H | intros ([? ?] & _); discriminate]. }
    destruct audioBlob as [audioBlob|].
    2: { split; [intros H; inversion H | intros (_ & [? ?] & _); discriminate]. }
    destruct uploadError, error; simpl; rewrite !elem_of_cons, elem_of_nil.
    1-3: split; [intros H | intros (_ & _ & H1 & H2); discriminate];
      repeat (destruct H as [H | H]; [discriminate H|]); contradiction.
    split; [intros _ | intros _; tauto]. repeat split; now eexists.
  - intros profile audioBlob now reason error. unfold sendAudioMessage.
    destruct profile, audioBlob; reflexivity.
Qed.

(** X10: the button and the handler agree: whenever the send button
    of the text tab is enabled (the form is only rendered with a
    profile), [sendTextMessage] inserts exactly one row, for that
    profile, with the trimmed text; and for a text that is empty or
    white space only the button is disabled and the handler, should it
    run, does nothing. *)
Theorem sendText_button_guard (profile : Profile) (messageText : string)
    (sending : bool) (error : option string) :
  (sendText_disabled messageText sending = false ->
   inserted (sendTextMessage (Some profile) messageText error)
   = [ {| recipient_id := id profile;
          message_text := Some (JS.trim messageText);
          audio_url := None;
          message_type := "text" |} ])
  /\ (JS.trim messageText = "" ->
      sendText_disabled messageText sending = true
      /\ sendTextMessage (Some profile) messageText error = []).
Proof.
  unfold sendText_disabled, sendTextMessage. split.
  - intros H. apply orb_false_iff in H as [H _].
    rewrite H. destruct error; reflexivity.
  - intros ->. split; reflexivity.
Qed.

Lemma extMap_own (k e : string) :
  extMap !! k = Some e -> Object_prototype !! k = None.
Proof.
  intros H. apply elem_of_list_to_map_2 in H. apply list_elem_of_In in H.
  simpl in H.
  repeat (destruct H as [H | H]; [injection H as <- <-; reflexivity|]).
  contradiction.
Qed.

(** X11: whatever MIME type a blob reports, it is uploaded unchanged
    to the bucket [audio-messages] with its own type as content type
    ([audio/webm] when it has none).  The name it is stored under ends
    in one of the extensions webm, mp3, m4a, wav and ogg, unless the
    type is the name of a property objects inherit ([constructor],
    [__proto__], ...): then the name ends in the text that property
    prints as. *)
Theorem upload_type_and_extension (profile : Profile) (audioBlob : Blob)
    (now : Z) (uploadError error : option string) :
  exists ext,
    sendAudioMessage (Some profile) (Some audioBlob) now uploadError error
    !! 1%nat
    = Some (Upload "audio-messages"
              (JS.string_of_Z now +:+ "-" +:+ id profile +:+ "." +:+ ext)
              audioBlob
              (if JS.truthy (type audioBlob) then type audioBlob
               else "audio/webm"))
    /\ (Object_prototype !! type audioBlob = None ->
        ext ∈ ["webm"; "mp3"; "m4a"; "wav"; "ogg"])
    /\ (forall printed, Object_prototype !! type audioBlob = Some printed ->
        ext = printed).
Proof.
  exists (ext_of (mime_of audioBlob)). split; [reflexivity|]. split.
  - intros Hown. apply mime_of_own in Hown.
    rewrite (ext_of_extension _ Hown). apply extension_known.
  - intros printed Hp. unfold mime_of, JS.or_else.
    destruct (type audioBlob) as [|c t] eqn:Et; [discriminate Hp|].
    simpl JS.truthy. cbv iota. unfold ext_of.
    destruct (extMap !! String c t) as [e|] eqn:Ee.
    + apply extMap_own in Ee. congruence.
    + now rewrite Hp.
Qed.

(** X12: every type [startRecording] may ask the recorder for has an
    entry of its own in the extension table and is kept as it is by
    [Blob]; so a recording whose recorder reports no type of its own is
    stored as webm, ogg or m4a according to the first candidate the
    browser supports, and as webm when it supports none or has no
    [MediaRecorder.isTypeSupported]. *)
Theorem recorded_blob_extension (supported : string -> bool) :
  Forall (fun t => is_Some (extMap !! t) /\ Blob_type t = t) candidates
  /\ ext_of (mime_of (recorded_blob (Some supported) ""))
     = (if supported "audio/webm;codecs=opus" then "webm"
        else if supported "audio/ogg;codecs=opus" then "ogg"
        else if supported "audio/mp4" then "m4a"
        else "webm")
  /\ ext_of (mime_of (recorded_blob None "")) = "webm".
Proof.
  split; [|split].
  - repeat constructor; try (vm_compute; eexists; reflexivity).
  - unfold recorded_blob, mimeType_of. simpl List.find.
    destruct (supported "audio/webm;codecs=opus"); [reflexivity|].
    destruct (supported "audio/ogg;codecs=opus"); [reflexivity|].
    destruct (supported "audio/mp4"); reflexivity.
  - reflexivity.
Qed.

(** X13: a file chosen from the device is sent only if it is at most
    10 MiB: after a file within the limit was chosen, [sendAudioMessage]
    uploads that very file; after a larger one was chosen (and no audio
    was there before) the choice is refused with a toast, the input is
    cleared and [sendAudioMessage] does nothing. *)
Theorem chosen_file_size_limit (file : File) (st : audio_state)
    (profile : Profile) (now : Z) (uploadError error : option string) :
  audioBlob st = None ->
  let sel := handleAudioFileSelected (Some file) st in
  let es := sendAudioMessage (Some profile) (audioBlob (selected sel)) now
              uploadError error in
  ((size file <= 10485760)%Z ->
   refusal sel = None
   /\ exists name mime,
        es !! 1%nat = Some (Upload "audio-messages" name (file_blob file) mime))
  /\ ((10485760 < size file)%Z ->
      refusal sel = Some ("File terlalu besar", "Maksimum 10MB")
      /\ input_cleared sel = true
      /\ es = []).
Proof.
  intros Hst. cbv zeta. unfold handleAudioFileSelected.
  change (10 * 1024 * 1024)%Z with 10485760%Z.
  destruct (10485760 <? size file)%Z eqn:E.
  - apply Z.ltb_lt in E. split; [lia|]. intros _. simpl. now rewrite Hst.
  - apply Z.ltb_ge in E. split; [|lia]. intros _. split; [reflexivity|].
    simpl. eauto.
Qed.

End SendView.

Lemma sendText_button_guard_witness :
  SendMessage.sendText_disabled "  hi " false = false
  /\ SendMessage.inserted
       (SendMessage.sendTextMessage (Some Spec.recipient) "  hi " None)
     = [ {| SendMessage.recipient_id := "u1";
            SendMessage.message_text := Some (JS.trim "  hi ");
            SendMessage.audio_url := None;
            SendMessage.message_type := "text" |} ].
Proof.
  split; [reflexivity|].
  exact (proj1 (sendText_button_guard Spec.recipient "  hi " false None)
           eq_refl).
Defined.

Lemma chosen_file_size_limit_witness :
  SendMessage.audioBlob
    {| SendMessage.audioBlob := None; SendMessage.isRecording := false |}
  = None
  /\ (10485760 < SendMessage.size Spec.big_file)%Z
  /\ SendMessage.sendAudioMessage (Some Spec.recipient)
       (SendMessage.audioBlob
          (SendMessage.selected
             (SendMessage.handleAudioFileSelected (Some Spec.big_file)
                {| SendMessage.audioBlob := None;
                   SendMessage.isRecording := false |})))
       1700000000000 None None
     = []
  /\ (SendMessage.size Spec.full_file <= 10485760)%Z
  /\ SendMessage.refusal
       (SendMessage.handleAudioFileSelected (Some Spec.full_file)
          {| SendMessage.audioBlob := None;
             SendMessage.isRecording := false |})
     = None.
Proof.
  assert (Hbig : (10485760 < SendMessage.size Spec.big_file)%Z) by reflexivity.
  assert (Hfull : (SendMessage.size Spec.full_file <= 10485760)%Z)
    by discriminate.
  split; [reflexivity|]. split; [exact Hbig|]. split.
  - exact (proj2 (proj2 (proj2 (chosen_file_size_limit Spec.big_file
             {| SendMessage.audioBlob := None;
                SendMessage.isRecording := false |}
             Spec.recipient 1700000000000 None None eq_refl) Hbig))).
  - split; [exact Hfull|].
    exact (proj1 (proj1 (chosen_file_size_limit Spec.full_file
             {| SendMessage.audioBlob := None;
                SendMessage.isRecording := false |}
             Spec.recipient 1700000000000 None None eq_refl) Hfull)).
Defined.

(** ** The recording: how often it is stopped, and its last frame *)

Section RecordingBounds.

Import Canvas Dashboard.
Local Open Scope Q_scope.

Variable measureText : string -> string -> JS.number.
Variable sin : JS.number -> JS.number.
Variable PI : JS.number.
Variable number_to_string : JS.number -> string.
Variables (message : Message) (startTime : Z) (duration : JS.number).

Local Notation "'frame'" :=
  (drawFrame measureText sin PI number_to_string message startTime duration).
Local Notation "'after'" :=
  (run measureText sin PI number_to_string message startTime duration).

Lemma ended_count_snoc (evs : list event) (ev : event) :
  Spec.ended_count (evs ++ [ev])
  = (Spec.ended_count evs
     + match ev with AudioEnded _ => 1 | _ => 0 end)%nat.
Proof.
  induction evs as [|e evs IH]; simpl.
  - destruct ev; reflexivity.
  - destruct e; simpl; rewrite IH; lia.
Qed.

Lemma run_budget (evs : list event) :
  (length (stop_calls (after evs)) + length (timers (after evs))
   <= Spec.ended_count evs
      + (if frame_requested (after evs) then 0 else 1))%nat.
Proof.
  induction evs as [|ev evs IH] using rev_ind; [simpl; lia|].
  rewrite run_snoc, ended_count_snoc.
  destruct ev as [now | now | now]; simpl.
  - destruct (frame_requested (after evs)) eqn:Hfr.
    + destruct (snd (frame now)); simpl; rewrite ?Hfr, ?length_app; simpl; lia.
    + rewrite Hfr. lia.
  - rewrite length_app. simpl. lia.
  - destruct (timers (after evs)) as [|due rest] eqn:Ht; [rewrite Ht; lia|].
    destruct (due <=? now)%Z; simpl.
    + rewrite length_app. simpl in *. lia.
    + rewrite Ht. simpl in *. lia.
Qed.

(** X14: in any run of the recording [recorder.stop()] is called at
    most once more than the audio ended: at most once by the frame
    loop and once for every [ended] event.  Once the frame loop has
    stopped the recorder no further frame is drawn: a frame that
    arrives then changes nothing. *)
Theorem recorder_stop_calls_bounded (evs : list event) :
  (length (stop_calls (after evs)) <= 1 + Spec.ended_count evs)%nat
  /\ (forall now, frame_requested (after evs) = false ->
        after (evs ++ [Frame now]) = after evs).
Proof.
  split.
  - pose proof (run_budget evs) as H.
    destruct (frame_requested (after evs)); lia.
  - intros now H. rewrite run_snoc. simpl. now rewrite H.
Qed.


End RecordingBounds.


(** ** Downloading the audio, setting up the video *)

Section DownloadHandlers.

Import Dashboard.

Variable getPublicUrl : string -> string -> string.
Variable format : string -> string -> string.

Lemma strip_prefix_app (p s : string) : strip_prefix p (p +:+ s) = Some s.
Proof.
  induction p as [|c p IH]; simpl; [reflexivity|].
  now rewrite Ascii.eqb_refl.
Qed.

Lemma filePath_of_stored (fileName : string) :
  filePath_of ("audio-messages/" +:+ fileName) = fileName.
Proof. unfold filePath_of. now rewrite strip_prefix_app. Qed.

(** X16: the dashboard resolves the object the send view stored: for
    a message whose audio reference is the one of a row written by
    [sendAudioMessage], both download handlers ask for the public URL,
    in the same bucket, of exactly the name under which the blob was
    uploaded. *)
Theorem download_resolves_uploaded_object (profile : SendMessage.Profile)
    (audioBlob : SendMessage.Blob) (now : Z) (error : option string)
    (r : SendMessage.row) (message : Message) (fetched : option string)
    (loadError : option string) (ctx webm : bool) :
  r ∈ SendMessage.inserted
        (SendMessage.sendAudioMessage (Some profile) (Some audioBlob) now
           None error) ->
  audio_url message = SendMessage.audio_url r ->
  exists bucket name,
    SendMessage.uploaded
      (SendMessage.sendAudioMessage (Some profile) (Some audioBlob) now
         None error)
    = [(bucket, name)]
    /\ head (downloadAudioFile getPublicUrl format message fetched)
       = Some (FetchUrl (getPublicUrl bucket name))
    /\ downloadVideoTemplate_setup getPublicUrl message loadError ctx webm
       !! 1%nat
       = Some (LoadAudio (getPublicUrl bucket name)).
Proof.
  intros Hr Hm.
  exists "audio-messages",
    (SendMessage.fileName_of now profile
       (SendMessage.ext_of (SendMessage.mime_of audioBlob))).
  assert (Hu : audio_url message
               = Some ("audio-messages/"
                       +:+ SendMessage.fileName_of now profile
                             (SendMessage.ext_of
                                (SendMessage.mime_of audioBlob)))).
  { rewrite Hm. unfold SendMessage.sendAudioMessage in Hr.
    destruct error; simpl in Hr; apply elem_of_one in Hr; now subst r. }
  split; [destruct error; reflexivity|].
  unfold downloadAudioFile, downloadVideoTemplate_setup.
  rewrite Hu, filePath_of_stored. split; reflexivity.
Qed.

(** X17: [downloadAudioFile] does nothing for a message without audio
    reference; otherwise it fetches the object and hands a file to the
    browser only when the fetch succeeded, always under a name ending
    in [.mp3] whatever the stored object is called, and it closes with
    one notification, of success or of failure. *)
Theorem downloadAudioFile_outcomes (message : Message)
    (fetched : option string) :
  let es := downloadAudioFile getPublicUrl format message fetched in
  ((audio_url message = None \/ audio_url message = Some "") -> es = [])
  /\ (forall url, audio_url message = Some url -> url <> "" ->
        head es
        = Some (FetchUrl (getPublicUrl "audio-messages" (filePath_of url)))
        /\ Spec.saved_files es
           = match fetched with
             | Some _ =>
                 [ "audio-message-"
                   +:+ format (created_at message) "yyyy-MM-dd-HHmm"
                   +:+ ".mp3" ]
             | None => []
             end
        /\ Spec.notices es
           = [ match fetched with
               | Some _ => ("Success", "Audio file downloaded successfully!")
               | None => ("Error", "Failed to download audio file")
               end ]).
Proof.
  cbv zeta. unfold downloadAudioFile. split.
  - intros [-> | ->]; reflexivity.
  - intros url -> Hne. destruct url as [|c url]; [now elim Hne|].
    destruct fetched; repeat split.
Qed.

(** X18: the video export starts the recorder only when the message
    has an audio reference, the audio could be loaded, a 2D context was
    there and WebM recording is supported.  Without audio reference it
    does nothing at all; in every other case it announces the export
    and reports the first step that failed (loading before context
    before format) in one error notification, and it never hands a
    file to the browser before the recorder has stopped; when the
    recorder stops, one file goes to the browser, named
    [audio-message-video-<date>.webm]. *)
Theorem downloadVideoTemplate_setup_outcomes (message : Message)
    (loadError : option string) (ctx webm : bool) (chunks : string) :
  let es := downloadVideoTemplate_setup getPublicUrl message loadError ctx
              webm in
  let has_audio := match audio_url message with
                   | Some url => JS.truthy url
                   | None => false
                   end in
  (has_audio = false -> es = [])
  /\ Spec.saved_files es = []
  /\ Spec.recorders es
     = (if has_audio && bool_decide (loadError = None) && ctx && webm
        then ["video/webm"] else [])
  /\ (has_audio = true ->
      Spec.notices es
      = ("Creating video...",
         "Please wait while we create your MP4 video with template")
        :: match loadError with
           | Some reason =>
               [("Error", "Failed to create video template: " +:+ reason)]
           | None =>
               if negb ctx
               then [("Error",
                      "Failed to create video template: "
                      +:+ "Cannot get canvas context")]
               else if negb webm
               then [("Error",
                      "Failed to create video template: "
                      +:+ "WebM format not supported")]
               else []
           end)
  /\ Spec.saved_files (recorder_onstop format message chunks)
     = [ "audio-message-video-"
         +:+ format (created_at message) "yyyy-MM-dd-HHmm" +:+ ".webm" ].
Proof.
  cbv zeta. unfold downloadVideoTemplate_setup.
  destruct (audio_url message) as [url|]; [|repeat split; discriminate].
  destruct (JS.truthy url); [|repeat split; discriminate].
  destruct loadError, ctx, webm; repeat split; discriminate.
Qed.

End DownloadHandlers.

Lemma download_resolves_uploaded_object_witness :
  {| SendMessage.recipient_id := "u1";
     SendMessage.message_text := None;
     SendMessage.audio_url := Some "audio-messages/1700000000000-u1.m4a";
     SendMessage.message_type := "audio" |}
    ∈ SendMessage.inserted
        (SendMessage.sendAudioMessage (Some Spec.recipient)
           (Some Spec.mp4_blob) 1700000000000 None None)
  /\ exists bucket name,
       SendMessage.uploaded
         (SendMessage.sendAudioMessage (Some Spec.recipient)
            (Some Spec.mp4_blob) 1700000000000 None None)
       = [(bucket, name)]
       /\ head (Dashboard.downloadAudioFile Spec.flat_url Spec.flat_format
                  {| Dashboard.id := "m3";
                     Dashboard.message_text := None;
                     Dashboard.audio_url :=
                       Some "audio-messages/1700000000000-u1.m4a";
                     Dashboard.message_type := "audio";
                     Dashboard.is_read := false;
                     Dashboard.created_at := "2025-08-10T01:24:29Z" |}
                  None)
          = Some (Dashboard.FetchUrl (Spec.flat_url bucket name)).
Proof.
  assert (H : {| SendMessage.recipient_id := "u1";
                 SendMessage.message_text := None;
                 SendMessage.audio_url :=
                   Some "audio-messages/1700000000000-u1.m4a";
                 SendMessage.message_type := "audio" |}
                ∈ SendMessage.inserted
                    (SendMessage.sendAudioMessage (Some Spec.recipient)
                       (Some Spec.mp4_blob) 1700000000000 None None))
    by (vm_compute; left).
  split; [exact H|].
  destruct (download_resolves_uploaded_object Spec.flat_url Spec.flat_format
              Spec.recipient Spec.mp4_blob 1700000000000 None _
              {| Dashboard.id := "m3";
                 Dashboard.message_text := None;
                 Dashboard.audio_url :=
                   Some "audio-messages/1700000000000-u1.m4a";
                 Dashboard.message_type := "audio";
                 Dashboard.is_read := false;
                 Dashboard.created_at := "2025-08-10T01:24:29Z" |}
              None None true true H eq_refl)
    as [bucket [name [Hu [Hf _]]]].
  exists bucket, name. split; [exact Hu | exact Hf].
Defined.

(** ** The endpoint *)

Section Endpoint.

Import Api.

Variable json : Type.
Variable empty_object : json.

Local Notation "'respond'" := (handler json empty_object).

(** X19: the endpoint answers GET with 200 and an empty list, POST
    with 201 and the body it was sent (the empty object when there is
    none), and everything else, a missing method or one in another
    case included, with 405.  A 405 carries the header [Allow], and the
    methods that header lists are exactly the methods the endpoint does
    not refuse; no other answer carries a header. *)
Theorem handler_allow_lists_accepted_methods (req : request json) :
  (status json (respond req) = 405%Z
   <-> method json req <> Some "GET" /\ method json req <> Some "POST")
  /\ (status json (respond req) = 405%Z ->
      exists allow,
        headers json (respond req) = [("Allow", allow)]
        /\ forall m b,
             m ∈ Spec.split_at "," allow
             <-> status json (respond {| method := Some m; body := b |})
                 <> 405%Z)
  /\ (status json (respond req) <> 405%Z -> headers json (respond req) = [])
  /\ (method json req = Some "GET" -> sent json (respond req) = Items json [])
  /\ (method json req = Some "POST" ->
      sent json (respond req)
      = Saved json (match body json req with
                    | Some b => b
                    | None => empty_object
                    end)).
Proof.
  unfold handler.
  destruct (bool_decide (method json req = Some "GET")) eqn:Hg;
    [apply bool_decide_eq_true in Hg | apply bool_decide_eq_false in Hg].
  { simpl. split; [|split; [|split; [|split]]].
    - split; [discriminate | intros [H _]; contradiction].
    - discriminate.
    - reflexivity.
    - reflexivity.
    - intros H. rewrite Hg in H. discriminate. }
  destruct (bool_decide (method json req = Some "POST")) eqn:Hp;
    [apply bool_decide_eq_true in Hp | apply bool_decide_eq_false in Hp].
  { simpl. split; [|split; [|split; [|split]]].
    - split; [discriminate | intros [_ H]; contradiction].
    - discriminate.
    - reflexivity.
    - intros H. contradiction.
    - reflexivity. }
  simpl. split; [|split; [|split; [|split]]].
  - split; [intros _; split; assumption | reflexivity].
  - intros _. exists "GET,POST". split; [reflexivity|].
    intros m b. change (Spec.split_at "," "GET,POST") with ["GET"; "POST"].
    rewrite !elem_of_cons, elem_of_nil.
    destruct (bool_decide (Some m = Some "GET")) eqn:Eg;
      [apply bool_decide_eq_true in Eg | apply bool_decide_eq_false in Eg].
    { simpl. injection Eg as ->. split; [discriminate | tauto]. }
    destruct (bool_decide (Some m = Some "POST")) eqn:Ep;
      [apply bool_decide_eq_true in Ep | apply bool_decide_eq_false in Ep].
    { simpl. injection Ep as ->. split; [discriminate | tauto]. }
    simpl. split; [|intros H; now elim H].
    intros [H | [H | H]]; [subst m; now elim Eg | subst m; now elim Ep
                          | contradiction].
  - intros H. now elim H.
  - intros H. contradiction.
  - intros H. contradiction.
Qed.

End Endpoint.
